(** * Email-Verifier: a shallow embedding of the verifier and its callers

    The development follows [email_verifier.py] (class [EmailVerifier]),
    the format check of [excel_processor.py] and the status assignment of
    the verification loop of [app.py].

    Conventions of the embedding:
    - a Python [str] is a [string]; a character is an [ascii], read as a
      code point below 256;
    - an [int] is a [Z]; the [float] delay handed to [time.sleep] is a [Q];
    - the network (DNS resolver, SMTP client, clock) is a record of
      operations over an abstract world [W]; a call may return a value or
      raise, and it may change the world;
    - [try]/[except] is written with [catch]; [except Exception] lets the
      exceptions that are not instances of [Exception] through, a bare
      [except:] does not. *)

From Stdlib Require Import List String Ascii ZArith Bool Lia.
From Stdlib Require Import QArith DecimalString.
Import ListNotations.

Local Open Scope string_scope.
Local Open Scope list_scope.
Local Open Scope Z_scope.

Set Implicit Arguments.

(* ------------------------------------------------------------------ *)
(** ** Characters and the string methods the code calls *)

Module Str.

Definition chars (s : string) : list ascii := list_ascii_of_string s.
Definition of_chars (l : list ascii) : string := string_of_list_ascii l.

Definition code (c : ascii) : nat := nat_of_ascii c.

Definition in_range (lo hi : nat) (c : ascii) : bool :=
  (Nat.leb lo (code c) && Nat.leb (code c) hi)%bool.

Definition is_lower (c : ascii) : bool := in_range 97 122 c.   (* a-z *)
Definition is_upper (c : ascii) : bool := in_range 65 90 c.    (* A-Z *)
Definition is_digit (c : ascii) : bool := in_range 48 57 c.    (* 0-9 *)
Definition is_alpha (c : ascii) : bool := (is_lower c || is_upper c)%bool.
Definition is_alnum (c : ascii) : bool := (is_alpha c || is_digit c)%bool.

Definition is_char (x c : ascii) : bool := Ascii.eqb c x.

(** [str.isspace] on one character: TAB..CR, FS..US, space, NEL, NBSP. *)
Definition isspace (c : ascii) : bool :=
  (in_range 9 13 c || in_range 28 32 c
   || Nat.eqb (code c) 133 || Nat.eqb (code c) 160)%bool.

(** [str.lower] on one character: A-Z and the upper-case letters of the
    Latin-1 block (all but the multiplication sign) move up by 32. *)
Definition lower_char (c : ascii) : ascii :=
  if (is_upper c || in_range 192 214 c || in_range 216 222 c)%bool
  then ascii_of_nat (code c + 32)
  else c.

Definition lower (s : string) : string := of_chars (map lower_char (chars s)).

(** [s.lstrip(chars)], [s.rstrip(chars)] and [s.strip(chars)], the set of
    characters given as a predicate. *)
Fixpoint lstrip_chars (p : ascii -> bool) (l : list ascii) : list ascii :=
  match l with
  | c :: l' => if p c then lstrip_chars p l' else l
  | [] => []
  end.

Definition rstrip_chars (p : ascii -> bool) (l : list ascii) : list ascii :=
  rev (lstrip_chars p (rev l)).

Definition rstrip (p : ascii -> bool) (s : string) : string :=
  of_chars (rstrip_chars p (chars s)).

Definition strip (s : string) : string :=
  of_chars (rstrip_chars isspace (lstrip_chars isspace (chars s))).

(** [s.split(sep)] for a separator of one character: the pieces between
    the occurrences of [sep], never an empty list. *)
Fixpoint split_chars (sep : ascii) (l : list ascii) : list (list ascii) :=
  match l with
  | [] => [[]]
  | c :: l' =>
      if Ascii.eqb c sep then [] :: split_chars sep l'
      else match split_chars sep l' with
           | piece :: pieces => (c :: piece) :: pieces
           | [] => [[c]]
           end
  end.

Definition split (sep : ascii) (s : string) : list string :=
  map of_chars (split_chars sep (chars s)).

(** [str(n)] for an [int]. *)
Definition of_int (n : Z) : string := NilZero.string_of_int (Z.to_int n).

(** [needle in s], for a string and for one character. *)
Definition contains (needle s : string) : Prop :=
  exists pre post : string, s = (pre ++ needle ++ post)%string.

Definition has_char (c : ascii) (s : string) : Prop := In c (chars s).

End Str.

(* ------------------------------------------------------------------ *)
(** ** Regular expressions and [re.match] *)

Module Re.

Inductive regex : Type :=
| Void : regex
| Eps : regex
| Class : (ascii -> bool) -> regex
| Seq : regex -> regex -> regex
| Alt : regex -> regex -> regex
| Star : regex -> regex.

(** [r+], [r?] and [r{2,}]. *)
Definition Plus (r : regex) : regex := Seq r (Star r).
Definition Opt (r : regex) : regex := Alt Eps r.
Definition AtLeast2 (r : regex) : regex := Seq r (Seq r (Star r)).

Fixpoint nullable (r : regex) : bool :=
  match r with
  | Void => false
  | Eps => true
  | Class _ => false
  | Seq r1 r2 => (nullable r1 && nullable r2)%bool
  | Alt r1 r2 => (nullable r1 || nullable r2)%bool
  | Star _ => true
  end.

Fixpoint deriv (c : ascii) (r : regex) : regex :=
  match r with
  | Void => Void
  | Eps => Void
  | Class p => if p c then Eps else Void
  | Seq r1 r2 =>
      if nullable r1 then Alt (Seq (deriv c r1) r2) (deriv c r2)
      else Seq (deriv c r1) r2
  | Alt r1 r2 => Alt (deriv c r1) (deriv c r2)
  | Star r1 => Seq (deriv c r1) (Star r1)
  end.

(** Does [r] match the whole of [l]? *)
Fixpoint fullmatch (r : regex) (l : list ascii) : bool :=
  match l with
  | [] => nullable r
  | c :: l' => fullmatch (deriv c r) l'
  end.

(** The words of a regular expression. *)
Inductive lang : regex -> list ascii -> Prop :=
| L_eps : lang Eps []
| L_class p c : p c = true -> lang (Class p) [c]
| L_seq r1 r2 u v : lang r1 u -> lang r2 v -> lang (Seq r1 r2) (u ++ v)
| L_alt_l r1 r2 u : lang r1 u -> lang (Alt r1 r2) u
| L_alt_r r1 r2 u : lang r2 u -> lang (Alt r1 r2) u
| L_star_nil r : lang (Star r) []
| L_star_app r u v : lang r u -> lang (Star r) v -> lang (Star r) (u ++ v).

Definition newline : ascii := ascii_of_nat 10.

(** [re.match(pattern, s) is not None] for a pattern of the shape [^body$]
    and no flags.  [re.match] anchors at the start, so [^] adds nothing.
    [$] holds at the end of the string and also just before a newline that
    is the last character, and [re.match] need not consume that newline:
    the strings matched are those of [body], followed by at most one
    newline. *)
Definition match_anchored (body : regex) (s : string) : bool :=
  fullmatch (Seq body (Opt (Class (Str.is_char newline)))) (Str.chars s).

End Re.

(* ------------------------------------------------------------------ *)
(** ** The format checks *)

(** The character classes of the pattern. *)
Definition local_char (c : ascii) : bool :=       (* [a-zA-Z0-9._%+-] *)
  (Str.is_alnum c || Str.is_char "." c || Str.is_char "_" c
   || Str.is_char "%" c || Str.is_char "+" c || Str.is_char "-" c)%bool.

Definition domain_char (c : ascii) : bool :=      (* [a-zA-Z0-9.-] *)
  (Str.is_alnum c || Str.is_char "." c || Str.is_char "-" c)%bool.

(** [r'^[a-zA-Z0-9._%+-]+@[a-zA-Z0-9.-]+\.[a-zA-Z]{2,}$'] without its
    anchors; the same text is [ExcelProcessor.email_pattern]. *)
Definition pattern : Re.regex :=
  Re.Seq (Re.Plus (Re.Class local_char))
    (Re.Seq (Re.Class (Str.is_char "@"))
       (Re.Seq (Re.Plus (Re.Class domain_char))
          (Re.Seq (Re.Class (Str.is_char "."))
             (Re.AtLeast2 (Re.Class Str.is_alpha))))).

Definition email_pattern : Re.regex := pattern.

(** [EmailVerifier._is_valid_email_format]. *)
Definition _is_valid_email_format (email : string) : bool :=
  Re.match_anchored pattern email.

(** [ExcelProcessor.is_valid_email_format]; on a [str] neither [strip] nor
    [re.match] raises, so the [except] branch is not taken. *)
Definition is_valid_email_format (email : string) : bool :=
  Re.match_anchored email_pattern (Str.strip email).

(* ------------------------------------------------------------------ *)
(** ** Exceptions, results and the monad of the network calls *)

(** The exception classes the code names, the one it can raise itself
    ([IndexError], from indexing), any other subclass of [Exception], and
    the signals that derive from [BaseException] only
    ([KeyboardInterrupt], [SystemExit]). *)
Inductive exn_class : Type :=
| SMTPConnectError
| SMTPServerDisconnected
| SMTPRecipientsRefused
| socket_timeout
| NXDOMAIN
| NoAnswer
| IndexError
| OtherException
| BaseExceptionOnly.

(** An exception: its class and [str(e)]. *)
Record exn : Type := Exn { exn_cls : exn_class; exn_str : string }.

(** [isinstance(e, Exception)]. *)
Definition is_Exception (e : exn) : bool :=
  match exn_cls e with
  | BaseExceptionOnly => false
  | _ => true
  end.

Inductive result (A : Type) : Type :=
| Ok : A -> result A
| Raise : exn -> result A.

Arguments Ok {A} _.
Arguments Raise {A} _.

(** A computation over the world [W]: it returns or raises, and leaves a
    new world. *)
Definition M (W A : Type) : Type := W -> result A * W.

Definition ret {W A : Type} (a : A) : M W A := fun w => (Ok a, w).

Definition raise {W A : Type} (e : exn) : M W A := fun w => (Raise e, w).

Definition bind {W A B : Type} (m : M W A) (k : A -> M W B) : M W B :=
  fun w =>
    match m w with
    | (Ok a, w') => k a w'
    | (Raise e, w') => (Raise e, w')
    end.

(** [try: m  except <any>: h e]; the handler decides what it catches. *)
Definition catch {W A : Type} (m : M W A) (h : exn -> M W A) : M W A :=
  fun w =>
    match m w with
    | (Ok a, w') => (Ok a, w')
    | (Raise e, w') => h e w'
    end.

(** The clause [except Exception as e: h e]: anything else goes on. *)
Definition except_Exception {W A : Type} (h : exn -> M W A) (e : exn)
  : M W A :=
  if is_Exception e then h e else raise e.

(** A pure step that may raise. *)
Definition lift {W A : Type} (r : result A) : M W A := fun w => (r, w).

Declare Scope py_scope.
Delimit Scope py_scope with py.
Notation "x <- m ;; k" := (bind m (fun x => k))
  (at level 100, m at next level, right associativity) : py_scope.
Notation "' p <- m ;; k" := (bind m (fun x => match x with p => k end))
  (at level 100, p pattern, m at next level, right associativity) : py_scope.
Local Open Scope py_scope.

(** [l[i]] for [0 <= i]. *)
Definition getitem {A : Type} (l : list A) (i : nat) : result A :=
  match nth_error l i with
  | Some a => Ok a
  | None => Raise (Exn IndexError "list index out of range")
  end.

(* ------------------------------------------------------------------ *)
(** ** The network *)

(** The [smtplib.SMTP] object as the code configures it. *)
Record SMTP : Type := { smtp_timeout : Z; debuglevel : Z }.

(** One MX record of an answer; [exchange] is [str(record.exchange)]. *)
Record MX : Type := { preference : Z; exchange : string }.

(** The calls that leave the process.  An SMTP command returns the pair
    [(code, message)] of the reply. *)
Record Net (W : Type) : Type := {
  resolve_MX : string -> M W (list MX);     (* dns.resolver.resolve(d, 'MX') *)
  resolve_A : string -> M W (list string);  (* ... (d, 'A'), each as str *)
  smtp_connect : SMTP -> string -> Z -> M W (Z * string);
  gethostname : M W string;
  smtp_helo : SMTP -> string -> M W (Z * string);
  smtp_mail : SMTP -> string -> M W (Z * string);
  smtp_rcpt : SMTP -> string -> M W (Z * string);
  smtp_quit : SMTP -> M W (Z * string);
  time_sleep : Q -> M W unit
}.

(* ------------------------------------------------------------------ *)
(** ** [EmailVerifier] *)

Record EmailVerifier : Type := { timeout : Z; sender_email : string }.

(** [EmailVerifier(timeout=10, sender_email="test@example.com")]. *)
Definition default_verifier : EmailVerifier :=
  {| timeout := 10; sender_email := "test@example.com" |}.

(** The verdict of [verify_email] from the reply code of RCPT. *)
Definition response_verdict (code : Z) : bool * string :=
  if code =? 250 then (true, "Email address exists")
  else if code =? 550 then (false, "Email address does not exist")
  else if code =? 552 then (false, "Mailbox full or quota exceeded")
  else if code =? 553 then (false, "Invalid email address")
  else (false, ("SMTP error code: " ++ Str.of_int code)%string).

(** The [except] clauses of the SMTP block, in their order. *)
Definition smtp_handler {W : Type} (e : exn) : M W (bool * string) :=
  match exn_cls e with
  | SMTPConnectError => ret (false, "Cannot connect to SMTP server")
  | SMTPServerDisconnected => ret (false, "SMTP server disconnected")
  | SMTPRecipientsRefused => ret (false, "Recipient refused")
  | socket_timeout => ret (false, "SMTP connection timeout")
  | _ => except_Exception
           (fun smtp_e => ret (false, ("SMTP error: " ++ exn_str smtp_e)%string)) e
  end.

Section Verifier.

Context {W : Type} (net : Net W).

(** [email.split('@')[1].lower()]. *)
Definition domain_of (email : string) : M W string :=
  part <- lift (getitem (Str.split "@" email) 1) ;;
  ret (Str.lower part).

(** The body of the MX [try]: the first record of the answer, trailing
    dots removed. *)
Definition mx_lookup (domain : string) : M W string :=
  mx_records <- resolve_MX net domain ;;
  record <- lift (getitem mx_records 0) ;;
  ret (Str.rstrip (Str.is_char ".") (exchange record)).

(** The SMTP conversation up to QUIT; it yields the code of RCPT.
    [smtplib.SMTP(timeout=...)] is given no host, so that it opens no
    connection, and [set_debuglevel] sets a field: the two make the
    object and no call. *)
Definition rcpt_probe (self : EmailVerifier) (mx_record email : string)
  : M W Z :=
  let server := {| smtp_timeout := timeout self; debuglevel := 0 |} in
  _ <- smtp_connect net server mx_record 25 ;;
  hostname <- gethostname net ;;
  _ <- smtp_helo net server hostname ;;
  _ <- smtp_mail net server (sender_email self) ;;
  '(code, message) <- smtp_rcpt net server email ;;
  _ <- smtp_quit net server ;;
  ret code.

(** [EmailVerifier.verify_email].  A [return] inside the MX handler leaves
    the function: the MX block yields either that early value or the
    host to probe. *)
Definition verify_email (self : EmailVerifier) (email : string)
  : M W (bool * string) :=
  catch
    (if negb (_is_valid_email_format email)
     then ret (false, "Invalid email format")
     else
       domain <- domain_of email ;;
       mx <- catch
               (mx_record <- mx_lookup domain ;; ret (inr mx_record))
               (except_Exception
                  (fun _ =>
                     ret (inl (false,
                               ("No MX record found for domain: "
                                ++ domain)%string)))) ;;
       match mx with
       | inl early => ret early
       | inr mx_record =>
           catch
             (code <- rcpt_probe self mx_record email ;;
              ret (response_verdict code))
             smtp_handler
       end)
    (except_Exception (fun _ => ret (false, "error"))).

(** One value of the dictionary [verify_email_batch] returns. *)
Record entry : Type := { is_valid : bool; details : string }.

(** A [dict] with [str] keys, in insertion order. *)
Definition dict : Type := list (string * entry).

(** [d[k] = v]: a key that is present keeps its place. *)
Fixpoint dict_set (k : string) (v : entry) (d : dict) : dict :=
  match d with
  | [] => [(k, v)]
  | (k', v') :: d' =>
      if String.eqb k' k then (k', v) :: d' else (k', v') :: dict_set k v d'
  end.

(** The [for] loop of [verify_email_batch]; [last_email] is [emails[-1]]. *)
Fixpoint batch_loop (self : EmailVerifier) (delay : Q) (last_email : string)
    (emails : list string) (results : dict) : M W dict :=
  match emails with
  | [] => ret results
  | email :: rest =>
      '(is_valid, details) <- verify_email self email ;;
      let results' :=
        dict_set email {| is_valid := is_valid; details := details |} results
      in
      _ <- (if negb (String.eqb email last_email)
            then time_sleep net delay else ret tt) ;;
      batch_loop self delay last_email rest results'
  end.

(** [EmailVerifier.verify_email_batch]. *)
Definition verify_email_batch (self : EmailVerifier) (emails : list string)
    (delay : Q) : M W dict :=
  batch_loop self delay (last emails "") emails [].

(** The dictionary [get_domain_info] returns; [error] is present on the
    outer [except] path only. *)
Record domain_info : Type := {
  domain : string;
  mx_records : list string;
  a_records : list string;
  has_mx : bool;
  resolvable : bool;
  error : option string
}.

(** [EmailVerifier.get_domain_info]; the two inner [except:] are bare. *)
Definition get_domain_info (email : string) : M W domain_info :=
  catch
    (domain <- domain_of email ;;
     mx_list <- catch
                  (mx_records <- resolve_MX net domain ;;
                   ret (map (fun record =>
                               Str.rstrip (Str.is_char ".") (exchange record))
                          mx_records))
                  (fun _ => ret []) ;;
     a_list <- catch
                 (a_records <- resolve_A net domain ;; ret a_records)
                 (fun _ => ret []) ;;
     ret {| domain := domain;
            mx_records := mx_list;
            a_records := a_list;
            has_mx := Nat.ltb 0 (List.length mx_list);
            resolvable := Nat.ltb 0 (List.length a_list);
            error := None |})
    (except_Exception
       (fun e =>
          ret {| domain := "unknown";
                 mx_records := [];
                 a_records := [];
                 has_mx := false;
                 resolvable := false;
                 error := Some (exn_str e) |})).

End Verifier.

(* ------------------------------------------------------------------ *)
(** ** The status column of [app.py] *)

(** The values of [Email_Verification_Status]. *)
Inductive status : Type :=
| NotChecked | InvalidFormat | Valid | Invalid | Error.

Definition status_label (s : status) : string :=
  match s with
  | NotChecked => "Not Checked"
  | InvalidFormat => "Invalid Format"
  | Valid => "Valid"
  | Invalid => "Invalid"
  | Error => "Error"
  end.

(** The [if is_valid / elif details == 'error' / else] of [verify_emails]. *)
Definition verification_status (r : bool * string) : status :=
  let '(is_valid, details) := r in
  if is_valid then Valid
  else if String.eqb details "error" then Error
  else Invalid.

Definition status_eqb (s t : status) : bool :=
  match s, t with
  | NotChecked, NotChecked | InvalidFormat, InvalidFormat
  | Valid, Valid | Invalid, Invalid | Error, Error => true
  | _, _ => false
  end.

(** The status [verify_emails] gives to a record of the batch dictionary,
    and the number of records with a given status. *)
Definition entry_status (kv : string * entry) : status :=
  verification_status (is_valid (snd kv), details (snd kv)).

Definition count_status (s : status) (results : dict) : nat :=
  List.length (filter (fun kv => status_eqb (entry_status kv) s) results).

(* ------------------------------------------------------------------ *)
(** ** The behaviour the specification words, for comparison *)

Section Specified.

Context {W : Type} (net : Net W).

(** Specified batch: one record per input position, in input order, a
    pause after each address but the last. *)
Fixpoint spec_runBatch (self : EmailVerifier) (delay : Q)
    (emails : list string) : M W (list (string * entry)) :=
  match emails with
  | [] => ret []
  | email :: rest =>
      '(is_valid, details) <- verify_email net self email ;;
      _ <- (match rest with [] => ret tt | _ :: _ => time_sleep net delay end) ;;
      records <- spec_runBatch self delay rest ;;
      ret ((email, {| is_valid := is_valid; details := details |}) :: records)
  end.

End Specified.

(** Specified resolver: the targets by ascending preference, trailing
    root separator trimmed. *)
Fixpoint insert_by_preference (r : MX) (l : list MX) : list MX :=
  match l with
  | [] => [r]
  | r' :: l' =>
      if preference r <=? preference r' then r :: l
      else r' :: insert_by_preference r l'
  end.

Definition sort_by_preference (l : list MX) : list MX :=
  fold_right insert_by_preference [] l.

Definition spec_resolveMailTargets (answer : list MX) : list string :=
  map (fun r => Str.rstrip (Str.is_char ".") (exchange r))
    (sort_by_preference answer).

(* ------------------------------------------------------------------ *)
(** ** A scripted network, to run the code on examples *)

(** The world counts the calls made so far.  The answers of the two DNS
    queries and the replies to CONNECT and RCPT are given; HELO, MAIL and
    QUIT are accepted and [sleep] returns. *)
Definition scripted_call {A : Type} (r : result A) : M nat A :=
  fun calls => (r, S calls).

Definition scripted (mx : result (list MX)) (a : result (list string))
    (connect rcpt : result (Z * string)) : Net nat :=
  {| resolve_MX := fun _ => scripted_call mx;
     resolve_A := fun _ => scripted_call a;
     smtp_connect := fun _ _ _ => scripted_call connect;
     gethostname := scripted_call (Ok "localhost");
     smtp_helo := fun _ _ => scripted_call (Ok (250, "Hello"));
     smtp_mail := fun _ _ => scripted_call (Ok (250, "OK"));
     smtp_rcpt := fun _ _ => scripted_call rcpt;
     smtp_quit := fun _ => scripted_call (Ok (221, "Bye"));
     time_sleep := fun _ => scripted_call (Ok tt) |}.

Definition one_mx : list MX :=
  [ {| preference := 10; exchange := "mx.example.com." |} ].

Definition two_mx : list MX :=
  [ {| preference := 20; exchange := "mx2.example.com." |};
    {| preference := 10; exchange := "mx1.example.com." |} ].

Definition one_a : list string := [ "192.0.2.1" ].

(** A server that answers RCPT with [code]. *)
Definition net_replying (code : Z) : Net nat :=
  scripted (Ok one_mx) (Ok one_a) (Ok (220, "ready")) (Ok (code, "reply")).

(** A server that lets the connection time out. *)
Definition net_timing_out : Net nat :=
  scripted (Ok one_mx) (Ok one_a)
    (Raise (Exn socket_timeout "timed out")) (Ok (250, "unused")).

(** A domain without MX record whose name still has an address. *)
Definition net_without_mx : Net nat :=
  scripted (Raise (Exn NoAnswer "no MX")) (Ok one_a)
    (Ok (220, "ready")) (Ok (250, "unused")).

(** A domain that does not exist. *)
Definition net_nxdomain : Net nat :=
  scripted (Raise (Exn NXDOMAIN "no such domain"))
    (Raise (Exn NXDOMAIN "no such domain"))
    (Ok (220, "ready")) (Ok (250, "unused")).

(** A domain whose answer lists the less preferred exchanger first. *)
Definition net_two_mx : Net nat :=
  scripted (Ok two_mx) (Ok one_a) (Ok (220, "ready")) (Ok (250, "OK")).

(* ------------------------------------------------------------------ *)
(** ** Conditions on the network *)

(** What a call raises is an instance of [Exception]: no
    [KeyboardInterrupt] or [SystemExit] arrives during it. *)
Definition only_Exception {W A : Type} (m : M W A) : Prop :=
  forall w e w', m w = (Raise e, w') -> is_Exception e = true.

(** The calls [verify_email] makes raise instances of [Exception] only. *)
Record net_only_Exception {W : Type} (net : Net W) : Prop := {
  oe_resolve_MX : forall d, only_Exception (resolve_MX net d);
  oe_connect : forall s h p, only_Exception (smtp_connect net s h p);
  oe_gethostname : only_Exception (gethostname net);
  oe_helo : forall s h, only_Exception (smtp_helo net s h);
  oe_mail : forall s a, only_Exception (smtp_mail net s a);
  oe_rcpt : forall s a, only_Exception (smtp_rcpt net s a);
  oe_quit : forall s, only_Exception (smtp_quit net s)
}.

(** [time.sleep(delay)] returns. *)
Definition sleep_returns {W : Type} (net : Net W) (delay : Q) : Prop :=
  forall w, exists w', time_sleep net delay w = (Ok tt, w').

(** An answer of the script is a value or an instance of [Exception]. *)
Definition mild {A : Type} (r : result A) : bool :=
  match r with
  | Ok _ => true
  | Raise e => is_Exception e
  end.

(* ------------------------------------------------------------------ *)
(** ** Scripted sessions and counted pauses *)

(** As [scripted], with the replies to HELO, MAIL and QUIT given too. *)
Definition scripted_session (mx : result (list MX))
    (helo mail rcpt quit : result (Z * string)) : Net nat :=
  {| resolve_MX := fun _ => scripted_call mx;
     resolve_A := fun _ => scripted_call (Ok one_a);
     smtp_connect := fun _ _ _ => scripted_call (Ok (220, "ready"));
     gethostname := scripted_call (Ok "localhost");
     smtp_helo := fun _ _ => scripted_call helo;
     smtp_mail := fun _ _ => scripted_call mail;
     smtp_rcpt := fun _ _ => scripted_call rcpt;
     smtp_quit := fun _ => scripted_call quit;
     time_sleep := fun _ => scripted_call (Ok tt) |}.






(** The keys a [dict] gets when the addresses are stored one by one: each
    address at its first occurrence. *)
Fixpoint first_occurrences (seen emails : list string) : list string :=
  match emails with
  | [] => []
  | email :: rest =>
      if existsb (String.eqb email) seen then first_occurrences seen rest
      else email :: first_occurrences (email :: seen) rest
  end.

(* ------------------------------------------------------------------ *)
(** ** Data frames *)

(** A cell as the code reads it: missing ([NaN], [None]), or a value,
    kept as the text [str(value)]. *)
Abbreviation cell := (option string) (only parsing).

(** [pd.isna(x)] and [str(x)]. *)
Definition isna (x : cell) : bool :=
  match x with
  | None => true
  | Some _ => false
  end.

Definition str (x : cell) : string :=
  match x with
  | Some s => s
  | None => "nan"
  end.

(** A frame: the column names and the rows, each row with one cell per
    column.  Names are distinct, as [pandas.read_excel] makes them. *)
Record DataFrame : Type := { columns : list string; rows : list (list cell) }.

Fixpoint index_of (name : string) (names : list string) : option nat :=
  match names with
  | [] => None
  | n :: names' =>
      if String.eqb n name then Some 0%nat
      else option_map S (index_of name names')
  end.

(** [name in df.columns]. *)
Definition has_column (df : DataFrame) (name : string) : bool :=
  match index_of name (columns df) with
  | Some _ => true
  | None => false
  end.

(** [df[name]], for a name among the columns. *)
Definition column (df : DataFrame) (name : string) : list cell :=
  match index_of name (columns df) with
  | Some j => map (fun row => nth j row None) (rows df)
  | None => []
  end.

(** [row[name]] for a row of [df.iterrows()]. *)
Definition row_get (df : DataFrame) (name : string) (row : list cell)
  : result cell :=
  match index_of name (columns df) with
  | Some j => Ok (nth j row None)
  | None => Raise (Exn OtherException ("'" ++ name ++ "'"))
  end.

Fixpoint update_nth {A : Type} (i : nat) (f : A -> A) (l : list A) : list A :=
  match l, i with
  | [], _ => []
  | x :: l', O => f x :: l'
  | x :: l', S i' => x :: update_nth i' f l'
  end.

(** [df[name] = df[name].apply(f)] on a copy. *)
Definition apply_column (f : cell -> cell) (name : string) (df : DataFrame)
  : DataFrame :=
  match index_of name (columns df) with
  | Some j => {| columns := columns df;
                 rows := map (update_nth j f) (rows df) |}
  | None => df
  end.

(** [c in s] for one character. *)
Definition char_in (c : ascii) (s : string) : bool :=
  existsb (Ascii.eqb c) (Str.chars s).

(* ------------------------------------------------------------------ *)
(** ** [ExcelProcessor] *)

(** The loop of [extract_valid_emails] over [df[email_column].dropna()]. *)
Fixpoint valid_emails_of (cells : list cell) : list string :=
  match cells with
  | [] => []
  | x :: rest =>
      if isna x then valid_emails_of rest
      else
        let email_str := Str.strip (str x) in
        if is_valid_email_format email_str
        then email_str :: valid_emails_of rest
        else valid_emails_of rest
  end.

(** [ExcelProcessor.extract_valid_emails]. *)
Definition extract_valid_emails (df : DataFrame) (email_column : string)
  : list string :=
  if negb (has_column df email_column) then []
  else valid_emails_of (column df email_column).

(** The keys [get_file_stats] adds for an email column. *)
Record email_stats : Type := {
  total_emails : Z;
  valid_emails : Z;
  invalid_emails : Z;
  empty_emails : Z
}.

(** The dictionary of [get_file_stats]; its key [columns] is
    [stats_columns] here. *)
Record file_stats : Type := {
  total_rows : Z;
  total_columns : Z;
  stats_columns : list string;
  empty_rows : Z;
  email_keys : option email_stats
}.

Definition len {A : Type} (l : list A) : Z := Z.of_nat (List.length l).

(** [ExcelProcessor.get_file_stats]; an [email_column] that is [None] or
    the empty string is falsy. *)
Definition get_file_stats (df : DataFrame) (email_column : option string)
  : file_stats :=
  let stats email_part :=
    {| total_rows := len (rows df);
       total_columns := len (columns df);
       stats_columns := columns df;
       empty_rows := len (filter (forallb isna) (rows df));
       email_keys := email_part |} in
  match email_column with
  | Some name =>
      if (negb (String.eqb name "") && has_column df name)%bool
      then
        let email_series := filter (fun x => negb (isna x)) (column df name) in
        let valid :=
          filter (fun email => is_valid_email_format (str email)) email_series
        in
        stats (Some {| total_emails := len email_series;
                       valid_emails := len valid;
                       invalid_emails := len email_series - len valid;
                       empty_emails := len (filter isna (column df name)) |})
      else stats None
  | None => stats None
  end.

(** The two [lambda] of [clean_email_data]. *)
Definition clean_text (x : cell) : cell :=
  if negb (isna x) then Some (Str.lower (Str.strip (str x))) else x.

Definition clean_keep (x : cell) : cell :=
  if (negb (isna x) && char_in "@" (str x) && char_in "." (str x))%bool
  then x else None.

(** [ExcelProcessor.clean_email_data]. *)
Definition clean_email_data (df : DataFrame) (email_column : string)
  : DataFrame :=
  if negb (has_column df email_column) then df
  else apply_column clean_keep email_column
         (apply_column clean_text email_column df).

(* ------------------------------------------------------------------ *)
(** ** The loop of [verify_emails] in [app.py] *)

(** The two columns [verify_emails] adds, for one row. *)
Record row_result : Type := {
  Email_Verification_Status : status;
  Verification_Details : string
}.

(** The variables of the loop.  The calls that draw on the page (status
    text, progress bar, metrics) read them and change none. *)
Record loop_state : Type := {
  verified_count : Z;
  valid_count : Z;
  invalid_count : Z;
  error_count : Z;
  result_df : list row_result
}.

Definition set_status (index : nat) (s : status) (st : loop_state)
  : loop_state :=
  {| verified_count := verified_count st;
     valid_count := valid_count st;
     invalid_count := invalid_count st;
     error_count := error_count st;
     result_df :=
       update_nth index
         (fun r => {| Email_Verification_Status := s;
                      Verification_Details := Verification_Details r |})
         (result_df st) |}.

Definition set_details (index : nat) (d : string) (st : loop_state)
  : loop_state :=
  {| verified_count := verified_count st;
     valid_count := valid_count st;
     invalid_count := invalid_count st;
     error_count := error_count st;
     result_df :=
       update_nth index
         (fun r => {| Email_Verification_Status := Email_Verification_Status r;
                      Verification_Details := d |})
         (result_df st) |}.

Definition set_counts (verified valid invalid errors : Z) (st : loop_state)
  : loop_state :=
  {| verified_count := verified;
     valid_count := valid;
     invalid_count := invalid;
     error_count := errors;
     result_df := result_df st |}.

(** The branch that ends in [continue]. *)
Definition mark_invalid_format (index : nat) (st : loop_state) : loop_state :=
  set_details index "Invalid email format" (set_status index InvalidFormat st).

(** [verified_count += 1]. *)
Definition count_verified (st : loop_state) : loop_state :=
  set_counts (verified_count st + 1) (valid_count st) (invalid_count st)
    (error_count st) st.

(** The [if is_valid / elif details == 'error' / else] and the
    assignment of the detail. *)
Definition record_result (index : nat) (is_valid : bool) (details : string)
    (st : loop_state) : loop_state :=
  let st :=
    if is_valid then
      set_counts (verified_count st) (valid_count st + 1)
        (invalid_count st) (error_count st) (set_status index Valid st)
    else if String.eqb details "error" then
      set_counts (verified_count st) (valid_count st)
        (invalid_count st) (error_count st + 1) (set_status index Error st)
    else
      set_counts (verified_count st) (valid_count st)
        (invalid_count st + 1) (error_count st)
        (set_status index Invalid st) in
  set_details index details st.

Section App.

Context {W : Type} (net : Net W).

(** The [for index, row in df.iterrows()] loop; [index] is the position
    of the row. *)
Fixpoint verify_rows (df : DataFrame) (email_column : string)
    (verifier : EmailVerifier) (delay : Q) (total : Z)
    (index : nat) (todo : list (list cell)) (st : loop_state)
  : M W loop_state :=
  match todo with
  | [] => ret st
  | row :: rest =>
      email <- lift (row_get df email_column row) ;;
      if (isna email || negb (is_valid_email_format (str email)))%bool
      then
        verify_rows df email_column verifier delay total (S index) rest
          (mark_invalid_format index st)
      else
        let st := count_verified st in
        '(is_valid, details) <- verify_email net verifier (str email) ;;
        let st := record_result index is_valid details st in
        _ <- (if verified_count st <? total
              then time_sleep net delay else ret tt) ;;
        verify_rows df email_column verifier delay total (S index) rest st
  end.

(** [verify_emails]: what it stores in the session, [None] when it stores
    nothing (no valid address, or an exception shown as an error). *)
Definition verify_emails (df : DataFrame) (email_column : string)
    (delay : Q) (timeout : Z) : M W (option loop_state) :=
  let verifier :=
    {| timeout := timeout; sender_email := "test@example.com" |} in
  let valid_emails := extract_valid_emails df email_column in
  let total := len valid_emails in
  if total =? 0 then ret None
  else
    let st :=
      {| verified_count := 0; valid_count := 0; invalid_count := 0;
         error_count := 0;
         result_df :=
           map (fun _ => {| Email_Verification_Status := NotChecked;
                            Verification_Details := "" |}) (rows df) |} in
    catch
      (st <- verify_rows df email_column verifier delay total 0 (rows df) st ;;
       ret (Some st))
      (except_Exception (fun _ => ret None)).

End App.

(** The condition of the [continue] of the loop, and the number of rows
    of the result with a given status. *)
Definition skipped (email : cell) : bool :=
  (isna email || negb (is_valid_email_format (str email)))%bool.

Definition count_rows (s : status) (l : list row_result) : Z :=
  len (filter (fun r => status_eqb (Email_Verification_Status r) s) l).

(** A frame to run the loops on: a name column and an address column. *)
Definition sample_df : DataFrame :=
  {| columns := ["name"; "email"];
     rows := [ [Some "Ann"; Some "ann@example.com"];
               [Some "Bob"; None];
               [Some "Cy"; Some " Cy@Example.org "];
               [Some "Di"; Some "not-an-email"];
               [None; None] ] |}.

(* ------------------------------------------------------------------ *)
(** * Properties *)

Unset Implicit Arguments.

(** ** Running the code on examples *)

Example fmt_plain : _is_valid_email_format "a.b+c@mail.example.com" = true.
Proof. reflexivity. Qed.

Example fmt_short_tld : _is_valid_email_format "a@b.c" = false.
Proof. reflexivity. Qed.

Example fmt_two_at : _is_valid_email_format "a@b@c.de" = false.
Proof. reflexivity. Qed.

Example fmt_excel_spaces : is_valid_email_format "  a@b.com " = true.
Proof. reflexivity. Qed.

Example fmt_dots_and_dashes :
  (_is_valid_email_format "a_b%c@d-e..io"
   && _is_valid_email_format "a@-.co")%bool = true.
Proof. reflexivity. Qed.

Example fmt_digit_in_tld : _is_valid_email_format "a@b.c0m" = false.
Proof. reflexivity. Qed.

(** [$] lets one final newline through, and nothing else. *)
Example fmt_trailing_newline :
  _is_valid_email_format ("a@b.com" ++ String Re.newline "") = true.
Proof. reflexivity. Qed.

Example fmt_two_newlines :
  _is_valid_email_format
    ("a@b.com" ++ String Re.newline (String Re.newline "")) = false.
Proof. reflexivity. Qed.

Example fmt_leading_newline :
  _is_valid_email_format (String Re.newline "a@b.com") = false.
Proof. reflexivity. Qed.

Example strip_tabs :
  Str.strip (String (ascii_of_nat 9) " a b " ++ String Re.newline "") = "a b".
Proof. reflexivity. Qed.

Example rstrip_dots :
  Str.rstrip (Str.is_char ".") "mx.example.com.." = "mx.example.com".
Proof. reflexivity. Qed.

Example of_int_421 : Str.of_int 421 = "421".
Proof. reflexivity. Qed.

Example of_int_negative : Str.of_int (-5) = "-5".
Proof. reflexivity. Qed.

Example split_no_separator : Str.split "@" "abc" = ["abc"].
Proof. reflexivity. Qed.

Example split_two : Str.split "@" "a@b@c" = ["a"; "b"; "c"].
Proof. reflexivity. Qed.

Example lower_mixed : Str.lower "Mail.EXAMPLE.com" = "mail.example.com".
Proof. reflexivity. Qed.

Example run_250 :
  verify_email (net_replying 250) default_verifier "user@example.com" 0%nat
  = (Ok (true, "Email address exists"), 7%nat).
Proof. reflexivity. Qed.

Example run_421 :
  verify_email (net_replying 421) default_verifier "user@example.com" 0%nat
  = (Ok (false, "SMTP error code: 421"), 7%nat).
Proof. reflexivity. Qed.

Example run_timeout :
  verify_email net_timing_out default_verifier "user@example.com" 0%nat
  = (Ok (false, "SMTP connection timeout"), 2%nat).
Proof. reflexivity. Qed.

Example run_nxdomain :
  verify_email net_nxdomain default_verifier "user@Example.COM" 0%nat
  = (Ok (false, "No MX record found for domain: example.com"), 1%nat).
Proof. reflexivity. Qed.

Example run_domain_info :
  fst (get_domain_info net_without_mx "user@example.com" 0%nat)
  = Ok {| domain := "example.com"; mx_records := []; a_records := one_a;
          has_mx := false; resolvable := true; error := None |}.
Proof. reflexivity. Qed.

Example run_batch_twice :
  fst (verify_email_batch (net_replying 250) default_verifier
         ["a@b.com"; "a@b.com"] 0%Q 0%nat)
  = Ok [("a@b.com", {| is_valid := true; details := "Email address exists" |})].
Proof. reflexivity. Qed.

(* ------------------------------------------------------------------ *)
(** ** Matching by derivatives computes membership *)

Lemma lang_void_inv (w : list ascii) : Re.lang Re.Void w -> False.
Proof. inversion 1. Qed.

Lemma lang_eps_inv (w : list ascii) : Re.lang Re.Eps w -> w = [].
Proof. inversion 1; reflexivity. Qed.

Lemma lang_class_inv (p : ascii -> bool) (w : list ascii) :
  Re.lang (Re.Class p) w -> exists c, w = [c] /\ p c = true.
Proof. inversion 1; subst; eauto. Qed.

Lemma lang_seq_inv (r1 r2 : Re.regex) (w : list ascii) :
  Re.lang (Re.Seq r1 r2) w ->
  exists u v, w = u ++ v /\ Re.lang r1 u /\ Re.lang r2 v.
Proof. inversion 1; subst; eauto. Qed.

Lemma lang_alt_inv (r1 r2 : Re.regex) (w : list ascii) :
  Re.lang (Re.Alt r1 r2) w -> Re.lang r1 w \/ Re.lang r2 w.
Proof. inversion 1; subst; auto. Qed.

(** A word of [r*] is empty or starts with a non-empty word of [r]. *)
Lemma lang_star_inv (r : Re.regex) (w : list ascii) :
  Re.lang (Re.Star r) w ->
  w = [] \/
  exists c u v, w = (c :: u) ++ v /\ Re.lang r (c :: u) /\ Re.lang (Re.Star r) v.
Proof.
  intros H. remember (Re.Star r) as rs eqn:E.
  induction H; try discriminate.
  - now left.
  - injection E as ->.
    destruct u as [|c u].
    + simpl. apply IHlang2. reflexivity.
    + right. exists c, u, v. auto.
Qed.

Lemma nullable_lang (r : Re.regex) :
  Re.nullable r = true <-> Re.lang r [].
Proof.
  induction r as [| |p|r1 IH1 r2 IH2|r1 IH1 r2 IH2|r IH]; simpl.
  - split; [discriminate | intros H; destruct (lang_void_inv _ H)].
  - split; [constructor | reflexivity].
  - split; [discriminate |].
    intros H. apply lang_class_inv in H as (c & E & _). discriminate.
  - rewrite andb_true_iff, IH1, IH2. split.
    + intros [H1 H2]. change (@nil ascii) with (@nil ascii ++ []).
      now constructor.
    + intros H. apply lang_seq_inv in H as (u & v & E & Hu & Hv).
      symmetry in E. apply app_eq_nil in E as [-> ->]. auto.
  - rewrite orb_true_iff, IH1, IH2. split.
    + intros [H|H]; [now apply Re.L_alt_l | now apply Re.L_alt_r].
    + apply lang_alt_inv.
  - split; [constructor | reflexivity].
Qed.

Lemma deriv_lang (c : ascii) (r : Re.regex) :
  forall w, Re.lang (Re.deriv c r) w <-> Re.lang r (c :: w).
Proof.
  induction r as [| |p|r1 IH1 r2 IH2|r1 IH1 r2 IH2|r IH]; intros w; simpl.
  - split; intros H; destruct (lang_void_inv _ H).
  - split; intros H; [destruct (lang_void_inv _ H)|].
    apply lang_eps_inv in H. discriminate.
  - split.
    + destruct (p c) eqn:Hp; intros H; [|destruct (lang_void_inv _ H)].
      apply lang_eps_inv in H as ->. now constructor.
    + intros H. apply lang_class_inv in H as (c' & E & Hp).
      injection E as -> ->. rewrite Hp. constructor.
  - split.
    + intros H.
      assert (Hl : Re.lang (Re.Seq (Re.deriv c r1) r2) w ->
                   Re.lang (Re.Seq r1 r2) (c :: w)).
      { intros H'. apply lang_seq_inv in H' as (u & v & -> & Hu & Hv).
        change (c :: u ++ v) with ((c :: u) ++ v).
        constructor; [now apply IH1 | assumption]. }
      destruct (Re.nullable r1) eqn:Hn; [|now apply Hl].
      apply lang_alt_inv in H as [H|H]; [now apply Hl|].
      change (c :: w) with ([] ++ c :: w).
      constructor; [now apply nullable_lang | now apply IH2].
    + intros H. apply lang_seq_inv in H as (u & v & E & Hu & Hv).
      destruct u as [|c' u]; simpl in E.
      * subst v. apply nullable_lang in Hu. rewrite Hu.
        apply Re.L_alt_r. now apply IH2.
      * injection E as <- ->.
        assert (Hd : Re.lang (Re.Seq (Re.deriv c r1) r2) (u ++ v))
          by (constructor; [now apply IH1 | assumption]).
        destruct (Re.nullable r1); [now apply Re.L_alt_l | assumption].
  - split.
    + intros H. apply lang_alt_inv in H as [H|H];
        [apply Re.L_alt_l; now apply IH1 | apply Re.L_alt_r; now apply IH2].
    + intros H. apply lang_alt_inv in H as [H|H];
        [apply Re.L_alt_l; now apply IH1 | apply Re.L_alt_r; now apply IH2].
  - split.
    + intros H. apply lang_seq_inv in H as (u & v & -> & Hu & Hv).
      change (c :: u ++ v) with ((c :: u) ++ v).
      constructor; [now apply IH | assumption].
    + intros H. apply lang_star_inv in H as [E|(c' & u & v & E & Hu & Hv)];
        [discriminate|].
      injection E as <- ->.
      constructor; [now apply IH | assumption].
Qed.

Lemma fullmatch_lang (w : list ascii) :
  forall r, Re.fullmatch r w = true <-> Re.lang r w.
Proof.
  induction w as [|c w IH]; intros r; simpl.
  - apply nullable_lang.
  - rewrite IH. apply deriv_lang.
Qed.

(** Words of [p*] and [p+] for a character class [p]. *)
Lemma lang_star_class (p : ascii -> bool) (w : list ascii) :
  Re.lang (Re.Star (Re.Class p)) w -> Forall (fun c => p c = true) w.
Proof.
  intros H. remember (Re.Star (Re.Class p)) as rs eqn:E.
  induction H; try discriminate.
  - constructor.
  - injection E as ->.
    apply lang_class_inv in H as (c & -> & Hp).
    simpl. constructor; auto.
Qed.

Lemma lang_plus_class (p : ascii -> bool) (w : list ascii) :
  Re.lang (Re.Plus (Re.Class p)) w ->
  w <> [] /\ Forall (fun c => p c = true) w.
Proof.
  intros H. apply lang_seq_inv in H as (u & v & -> & Hu & Hv).
  apply lang_class_inv in Hu as (c & -> & Hp).
  apply lang_star_class in Hv. split; [discriminate|].
  simpl. constructor; auto.
Qed.

(* ------------------------------------------------------------------ *)
(** ** Strings *)

Lemma chars_of_chars (l : list ascii) : Str.chars (Str.of_chars l) = l.
Proof. apply list_ascii_of_string_of_list_ascii. Qed.

Lemma of_chars_chars (s : string) : Str.of_chars (Str.chars s) = s.
Proof. apply string_of_list_ascii_of_string. Qed.

Lemma chars_append (s t : string) :
  Str.chars (s ++ t)%string = Str.chars s ++ Str.chars t.
Proof.
  induction s as [|c s IH]; simpl; [reflexivity|].
  unfold Str.chars in *. simpl. now rewrite IH.
Qed.

Lemma append_empty_r (s : string) : (s ++ "")%string = s.
Proof. induction s as [|c s IH]; simpl; [reflexivity | now rewrite IH]. Qed.

Lemma chars_inj (s t : string) : Str.chars s = Str.chars t -> s = t.
Proof.
  intros E. rewrite <- (of_chars_chars s), <- (of_chars_chars t).
  now rewrite E.
Qed.

(** [lstrip] removes a prefix of stripped characters and stops at the
    first character that is not one. *)
Lemma lstrip_chars_split (p : ascii -> bool) (l : list ascii) :
  exists a, l = a ++ Str.lstrip_chars p l /\ Forall (fun c => p c = true) a.
Proof.
  induction l as [|c l (a & E & Ha)]; simpl.
  - exists []. auto.
  - destruct (p c) eqn:Hp.
    + exists (c :: a). simpl. split; [now rewrite <- E | now constructor].
    + exists []. auto.
Qed.

Lemma lstrip_chars_head (p : ascii -> bool) (l : list ascii) c l' :
  Str.lstrip_chars p l = c :: l' -> p c = false.
Proof.
  induction l as [|x l IH]; simpl; [discriminate|].
  destruct (p x) eqn:Hp; [assumption|].
  intros E. injection E as <- _. assumption.
Qed.

Lemma rstrip_chars_split (p : ascii -> bool) (l : list ascii) :
  exists b, l = Str.rstrip_chars p l ++ b /\ Forall (fun c => p c = true) b.
Proof.
  unfold Str.rstrip_chars.
  destruct (lstrip_chars_split p (rev l)) as (a & E & Ha).
  exists (rev a). split.
  - rewrite <- rev_app_distr, <- E. symmetry. apply rev_involutive.
  - apply Forall_rev. assumption.
Qed.

Lemma rstrip_chars_last (p : ascii -> bool) (l : list ascii) l' c :
  Str.rstrip_chars p l = l' ++ [c] -> p c = false.
Proof.
  unfold Str.rstrip_chars. intros E.
  apply (f_equal (@rev ascii)) in E.
  rewrite rev_involutive, rev_app_distr in E. simpl in E.
  eapply lstrip_chars_head. eassumption.
Qed.

(** [strip] keeps a middle part, between two runs of whitespace. *)
Lemma strip_split (s : string) :
  exists a b,
    Str.chars s = a ++ Str.chars (Str.strip s) ++ b
    /\ Forall (fun c => Str.isspace c = true) a
    /\ Forall (fun c => Str.isspace c = true) b.
Proof.
  unfold Str.strip. rewrite chars_of_chars.
  destruct (lstrip_chars_split Str.isspace (Str.chars s)) as (a & Ea & Ha).
  destruct (rstrip_chars_split Str.isspace
              (Str.lstrip_chars Str.isspace (Str.chars s))) as (b & Eb & Hb).
  exists a, b. split; [|auto].
  rewrite <- Eb. assumption.
Qed.

(** [split] at a separator that occurs exactly once. *)
Lemma split_chars_none (sep : ascii) (l : list ascii) :
  ~ In sep l -> Str.split_chars sep l = [l].
Proof.
  induction l as [|c l IH]; simpl; intros H; [reflexivity|].
  destruct (Ascii.eqb_spec c sep) as [->|Hne].
  - exfalso. apply H. now left.
  - rewrite IH; [reflexivity|]. intros Hin. apply H. now right.
Qed.

Lemma split_chars_first (sep : ascii) (l r : list ascii) :
  ~ In sep l ->
  Str.split_chars sep (l ++ sep :: r) = l :: Str.split_chars sep r.
Proof.
  induction l as [|c l IH]; simpl; intros H.
  - now rewrite Ascii.eqb_refl.
  - destruct (Ascii.eqb_spec c sep) as [->|Hne].
    + exfalso. apply H. now left.
    + rewrite IH; [reflexivity|]. intros Hin. apply H. now right.
Qed.

(** A character that occurs once splits a string in one way only. *)
Lemma split_unique (x : ascii) (l1 r1 l2 r2 : list ascii) :
  l1 ++ x :: r1 = l2 ++ x :: r2 ->
  ~ In x l1 -> ~ In x r1 -> l1 = l2 /\ r1 = r2.
Proof.
  revert l2. induction l1 as [|c l1 IH]; intros [|c2 l2] E Hl Hr;
    simpl in E.
  - injection E as ->. auto.
  - injection E as <- ->. exfalso. apply Hr.
    apply in_or_app. right. now left.
  - injection E as -> _. exfalso. apply Hl. now left.
  - injection E as <- E.
    destruct (IH l2 E) as [-> ->]; auto.
    intros Hin. apply Hl. now right.
Qed.

Lemma Forall_class_not_in (p : ascii -> bool) (x : ascii) (l : list ascii) :
  p x = false -> Forall (fun c => p c = true) l -> ~ In x l.
Proof.
  intros Hx Hl Hin. rewrite Forall_forall in Hl.
  apply Hl in Hin. congruence.
Qed.

(* ------------------------------------------------------------------ *)
(** ** What the pattern matches *)

Lemma match_anchored_lang (body : Re.regex) (s : string) :
  Re.match_anchored body s = true <->
  exists w nl,
    Str.chars s = w ++ nl /\ Re.lang body w
    /\ (nl = [] \/ nl = [Re.newline]).
Proof.
  unfold Re.match_anchored. rewrite fullmatch_lang. split.
  - intros H. apply lang_seq_inv in H as (w & nl & E & Hw & Hnl).
    exists w, nl. repeat split; auto.
    apply lang_alt_inv in Hnl as [Hnl|Hnl].
    + left. now apply lang_eps_inv.
    + right. apply lang_class_inv in Hnl as (c & -> & Hc).
      unfold Str.is_char in Hc. apply Ascii.eqb_eq in Hc. now subst.
  - intros (w & nl & E & Hw & Hnl). rewrite E.
    constructor; [assumption|].
    destruct Hnl as [->| ->].
    + apply Re.L_alt_l. constructor.
    + apply Re.L_alt_r. constructor. apply Ascii.eqb_refl.
Qed.

Lemma pattern_shape (w : list ascii) :
  Re.lang pattern w ->
  exists l d t,
    w = l ++ "@"%char :: d ++ "."%char :: t
    /\ l <> [] /\ Forall (fun c => local_char c = true) l
    /\ d <> [] /\ Forall (fun c => domain_char c = true) d
    /\ (2 <= List.length t)%nat /\ Forall (fun c => Str.is_alpha c = true) t.
Proof.
  unfold pattern, Re.AtLeast2. intros H.
  apply lang_seq_inv in H as (l & v1 & -> & Hl & H).
  apply lang_seq_inv in H as (at_ & v2 & -> & Hat & H).
  apply lang_seq_inv in H as (d & v3 & -> & Hd & H).
  apply lang_seq_inv in H as (dot & v4 & -> & Hdot & H).
  apply lang_seq_inv in H as (x & v5 & -> & Hx & H).
  apply lang_seq_inv in H as (y & z & -> & Hy & Hz).
  apply lang_plus_class in Hl as [Hl1 Hl2].
  apply lang_plus_class in Hd as [Hd1 Hd2].
  apply lang_class_inv in Hat as (c1 & -> & Hc1).
  apply lang_class_inv in Hdot as (c2 & -> & Hc2).
  apply lang_class_inv in Hx as (cx & -> & Hcx).
  apply lang_class_inv in Hy as (cy & -> & Hcy).
  apply lang_star_class in Hz.
  unfold Str.is_char in Hc1, Hc2.
  apply Ascii.eqb_eq in Hc1, Hc2. subst c1 c2.
  exists l, d, (cx :: cy :: z). simpl. repeat split; auto.
  simpl. lia.
Qed.

(** A string the pattern accepts has exactly one [@], a non-empty local
    part before it and a dot after it. *)
Lemma match_one_at (s : string) :
  Re.match_anchored pattern s = true ->
  exists l rest,
    Str.chars s = l ++ "@"%char :: rest
    /\ l <> [] /\ ~ In "@"%char l /\ ~ In "@"%char rest /\ In "."%char rest.
Proof.
  intros H. apply match_anchored_lang in H as (w & nl & E & Hw & Hnl).
  apply pattern_shape in Hw as (l & d & t & -> & Hl1 & Hl & Hd1 & Hd & _ & Ht).
  exists l, (d ++ "."%char :: t ++ nl). repeat split.
  - rewrite E, <- app_assoc. simpl. now rewrite <- app_assoc.
  - assumption.
  - exact (@Forall_class_not_in local_char "@"%char l eq_refl Hl).
  - intros Hin. apply in_app_or in Hin as [Hin|[Hin|Hin]].
    + exact (@Forall_class_not_in domain_char "@"%char d eq_refl Hd Hin).
    + discriminate.
    + apply in_app_or in Hin as [Hin|Hin].
      * exact (@Forall_class_not_in Str.is_alpha "@"%char t eq_refl Ht Hin).
      * destruct Hnl as [-> | ->]; simpl in Hin;
          [assumption | destruct Hin as [Hin|[]]; discriminate].
  - apply in_or_app. right. now left.
Qed.

(** After the format check, indexing the split address cannot fail. *)
Lemma valid_format_domain (email : string) :
  _is_valid_email_format email = true ->
  exists l rest,
    Str.chars email = l ++ "@"%char :: rest
    /\ getitem (Str.split "@" email) 1 = Ok (Str.of_chars rest).
Proof.
  intros H. apply match_one_at in H as (l & rest & E & _ & Hl & Hr & _).
  exists l, rest. split; [assumption|].
  unfold Str.split. rewrite E, split_chars_first by assumption.
  rewrite split_chars_none by assumption. reflexivity.
Qed.

(* ------------------------------------------------------------------ *)
(** ** [verify_email], path by path *)

Section VerifierFacts.

Context {W : Type} (net : Net W).

Lemma domain_of_valid (email : string) :
  _is_valid_email_format email = true ->
  exists l rest,
    Str.chars email = l ++ "@"%char :: rest
    /\ forall w : W, domain_of email w = (Ok (Str.lower (Str.of_chars rest)), w).
Proof.
  intros H. apply valid_format_domain in H as (l & rest & E & Hg).
  exists l, rest. split; [assumption|].
  intros w. unfold domain_of, bind, lift, ret. now rewrite Hg.
Qed.

(** A string the format check rejects is answered without any call. *)
Lemma verify_email_bad_format (self : EmailVerifier) (email : string) (w : W) :
  _is_valid_email_format email = false ->
  verify_email net self email w = (Ok (false, "Invalid email format"), w).
Proof.
  intros H. unfold verify_email, catch. now rewrite H.
Qed.

(** The handler of the SMTP block raises again what it does not catch,
    and so does the outer handler. *)
Lemma smtp_handler_outcome (e : exn) (w : W) :
  (exists d, smtp_handler e w = (Ok (false, d), w) /\ d <> "")
  \/ (is_Exception e = false /\ smtp_handler e w = (Raise e, w)).
Proof.
  unfold smtp_handler, except_Exception, is_Exception, ret, raise.
  destruct (exn_cls e); simpl;
    try (left; eexists; split; [reflexivity | discriminate]).
  right. auto.
Qed.

(** The value of [verify_email] on a well-formed address, from the
    outcomes of the MX lookup and of the SMTP conversation. *)
Lemma verify_email_eq (self : EmailVerifier) (email domain : string) (w : W) :
  _is_valid_email_format email = true ->
  domain_of email w = (Ok domain, w) ->
  verify_email net self email w =
    match mx_lookup net domain w with
    | (Raise e, w1) =>
        if is_Exception e
        then (Ok (false, ("No MX record found for domain: " ++ domain)%string),
              w1)
        else (Raise e, w1)
    | (Ok mx_record, w1) =>
        match rcpt_probe net self mx_record email w1 with
        | (Ok code, w2) => (Ok (response_verdict code), w2)
        | (Raise e, w2) => smtp_handler e w2
        end
    end.
Proof.
  intros Hf Hd. unfold verify_email, catch at 1. rewrite Hf. simpl.
  unfold bind at 1. rewrite Hd.
  unfold bind at 1, catch at 1, bind at 1.
  destruct (mx_lookup net domain w) as [[mx_record|e] w1].
  - unfold ret at 1. unfold catch, bind.
    destruct (rcpt_probe net self mx_record email w1) as [[code|e] w2].
    + reflexivity.
    + destruct (smtp_handler_outcome e w2) as [(d & -> & _)|[He ->]].
      * reflexivity.
      * unfold except_Exception. now rewrite He.
  - unfold except_Exception.
    destruct (is_Exception e) eqn:He; [reflexivity|].
    unfold raise. now rewrite He.
Qed.

End VerifierFacts.

(* ------------------------------------------------------------------ *)
(** ** Which exceptions can leave a computation *)

Lemma only_Exception_ret {W A : Type} (a : A) : only_Exception (@ret W A a).
Proof. intros w e w'. unfold ret. discriminate. Qed.

Lemma only_Exception_bind {W A B : Type} (m : M W A) (k : A -> M W B) :
  only_Exception m -> (forall a, only_Exception (k a)) ->
  only_Exception (bind m k).
Proof.
  intros Hm Hk w e w'. unfold bind.
  destruct (m w) as [[a|e0] w0] eqn:E.
  - apply Hk.
  - intros H. injection H as <- <-. eapply Hm. eassumption.
Qed.

Lemma only_Exception_getitem {W A : Type} (l : list A) (i : nat) :
  only_Exception (@lift W A (getitem l i)).
Proof.
  intros w e w'. unfold lift, getitem.
  destruct (nth_error l i); [discriminate|].
  intros H. injection H as <- _. reflexivity.
Qed.

Lemma only_Exception_scripted {A : Type} (r : result A) :
  mild r = true -> only_Exception (scripted_call r).
Proof.
  intros Hr w e w'. unfold scripted_call.
  intros H. injection H as -> _. exact Hr.
Qed.

Lemma scripted_only_Exception mx a connect rcpt :
  mild mx = true -> mild connect = true -> mild rcpt = true ->
  net_only_Exception (scripted mx a connect rcpt).
Proof.
  intros Hmx Hc Hr.
  constructor; simpl; intros; now apply only_Exception_scripted.
Qed.

Lemma scripted_sleep_returns mx a connect rcpt delay :
  sleep_returns (scripted mx a connect rcpt) delay.
Proof. intros w. eexists. reflexivity. Qed.

Section Returns.

Context {W : Type} (net : Net W) (Hnet : net_only_Exception net).

Lemma mx_lookup_only_Exception (domain : string) :
  only_Exception (mx_lookup net domain).
Proof.
  unfold mx_lookup.
  apply only_Exception_bind; [apply (oe_resolve_MX Hnet)|]. intros rs.
  apply only_Exception_bind; [apply only_Exception_getitem|]. intros r.
  apply only_Exception_ret.
Qed.

Lemma rcpt_probe_only_Exception (self : EmailVerifier) (mx email : string) :
  only_Exception (rcpt_probe net self mx email).
Proof.
  unfold rcpt_probe.
  apply only_Exception_bind; [apply (oe_connect Hnet)|]. intros _.
  apply only_Exception_bind; [apply (oe_gethostname Hnet)|]. intros h.
  apply only_Exception_bind; [apply (oe_helo Hnet)|]. intros _.
  apply only_Exception_bind; [apply (oe_mail Hnet)|]. intros _.
  apply only_Exception_bind; [apply (oe_rcpt Hnet)|]. intros [code msg].
  apply only_Exception_bind; [apply (oe_quit Hnet)|]. intros _.
  apply only_Exception_ret.
Qed.

Lemma response_verdict_details (code : Z) : snd (response_verdict code) <> "".
Proof.
  unfold response_verdict.
  repeat match goal with |- context [if ?b then _ else _] => destruct b end;
    simpl; discriminate.
Qed.

(** On such a network [verify_email] returns, with a non-empty detail. *)
Lemma verify_email_returns (self : EmailVerifier) (email : string) (w : W) :
  exists b d w',
    verify_email net self email w = (Ok (b, d), w') /\ d <> "".
Proof.
  destruct (_is_valid_email_format email) eqn:Hf.
  - destruct (domain_of_valid (W := W) email Hf) as (l & rest & _ & Hd).
    rewrite (verify_email_eq net self email _ w Hf (Hd w)).
    destruct (mx_lookup net (Str.lower (Str.of_chars rest)) w)
      as [[mx|e] w1] eqn:Emx.
    + destruct (rcpt_probe net self mx email w1) as [[code|e] w2] eqn:Ep.
      * pose proof (response_verdict_details code) as Hv.
        destruct (response_verdict code) as [b d]. eauto.
      * destruct (smtp_handler_outcome e w2) as [(d & -> & Hd')|[He _]];
          [eauto|].
        apply rcpt_probe_only_Exception in Ep. congruence.
    + apply mx_lookup_only_Exception in Emx. rewrite Emx.
      do 3 eexists. split; [reflexivity | discriminate].
  - rewrite verify_email_bad_format by assumption.
    do 3 eexists. split; [reflexivity | discriminate].
Qed.

End Returns.

(* ------------------------------------------------------------------ *)
(** ** The verdict of one address *)

Lemma verification_status_Error (b : bool) (d : string) :
  verification_status (b, d) = Error <-> b = false /\ d = "error".
Proof.
  unfold verification_status. destruct b.
  - split; [discriminate | intros [H _]; discriminate].
  - destruct (String.eqb_spec d "error") as [->|Hne].
    + split; auto.
    + split; [discriminate | intros [_ H]; contradiction].
Qed.

Lemma response_verdict_true (code : Z) (d : string) :
  response_verdict code = (true, d) ->
  code = 250 /\ d = "Email address exists".
Proof.
  unfold response_verdict.
  destruct (Z.eqb_spec code 250) as [->|_].
  - intros H. injection H as <-. auto.
  - repeat match goal with
           | |- context [if ?b then _ else _] => destruct b
           end; discriminate.
Qed.

(** C3.  When the conversation reaches RCPT and ends, [verify_email]
    returns the verdict of the reply code: 250 gives Valid with "Email
    address exists"; 550, 552 and 553 give Invalid with their fixed
    texts; any other code gives Invalid with "SMTP error code: " followed
    by the code. *)
Theorem response_code_verdict {W : Type} (net : Net W)
    (self : EmailVerifier) (email domain mx_record : string) (code : Z)
    (w w1 w2 : W) :
  _is_valid_email_format email = true ->
  domain_of email w = (Ok domain, w) ->
  mx_lookup net domain w = (Ok mx_record, w1) ->
  rcpt_probe net self mx_record email w1 = (Ok code, w2) ->
  exists is_valid details,
    verify_email net self email w = (Ok (is_valid, details), w2)
    /\ (code = 250 ->
        is_valid = true /\ details = "Email address exists"
        /\ verification_status (is_valid, details) = Valid)
    /\ (code = 550 ->
        is_valid = false /\ details = "Email address does not exist"
        /\ verification_status (is_valid, details) = Invalid)
    /\ (code = 552 ->
        is_valid = false /\ details = "Mailbox full or quota exceeded"
        /\ verification_status (is_valid, details) = Invalid)
    /\ (code = 553 ->
        is_valid = false /\ details = "Invalid email address"
        /\ verification_status (is_valid, details) = Invalid)
    /\ (code <> 250 -> code <> 550 -> code <> 552 -> code <> 553 ->
        is_valid = false
        /\ details = ("SMTP error code: " ++ Str.of_int code)%string
        /\ verification_status (is_valid, details) = Invalid).
Proof.
  intros Hf Hd Hmx Hp.
  exists (fst (response_verdict code)), (snd (response_verdict code)).
  split.
  - rewrite (verify_email_eq net self email domain w Hf Hd), Hmx, Hp.
    now destruct (response_verdict code).
  - unfold response_verdict.
    repeat split; intros; subst; try reflexivity;
      repeat match goal with
             | H : code <> _ |- _ => apply Z.eqb_neq in H; rewrite H; clear H
             end; reflexivity.
Qed.

Lemma response_code_verdict_witness :
  exists is_valid details,
    verify_email (net_replying 421) default_verifier "user@example.com" 0%nat
    = (Ok (is_valid, details), 7%nat)
    /\ is_valid = false
    /\ details = "SMTP error code: 421"
    /\ verification_status (is_valid, details) = Invalid.
Proof.
  destruct (response_code_verdict (net_replying 421) default_verifier
              "user@example.com" "example.com" "mx.example.com" 421
              0%nat 1%nat 7%nat eq_refl eq_refl eq_refl eq_refl)
    as (b & d & E & _ & _ & _ & _ & H).
  exists b, d. split; [exact E|].
  apply H; discriminate.
Defined.

(** C10.  [verify_email] returns [is_valid = True] exactly when the
    address passes the format check, the MX lookup gives a host and the
    conversation with it ends with reply code 250 to RCPT; the detail is
    then "Email address exists".  Every other path returns [False]. *)
Theorem valid_only_on_250 {W : Type} (net : Net W) (self : EmailVerifier)
    (email details : string) (w w' : W) :
  verify_email net self email w = (Ok (true, details), w') <->
  (details = "Email address exists"
   /\ _is_valid_email_format email = true
   /\ exists domain mx_record w1,
        domain_of email w = (Ok domain, w)
        /\ mx_lookup net domain w = (Ok mx_record, w1)
        /\ rcpt_probe net self mx_record email w1 = (Ok 250, w')).
Proof.
  split.
  - intros H.
    destruct (_is_valid_email_format email) eqn:Hf.
    + destruct (domain_of_valid (W := W) email Hf) as (l & rest & _ & Hd).
      rewrite (verify_email_eq net self email _ w Hf (Hd w)) in H.
      destruct (mx_lookup net (Str.lower (Str.of_chars rest)) w)
        as [[mx|e] w1] eqn:Emx.
      * destruct (rcpt_probe net self mx email w1) as [[code|e] w2] eqn:Ep.
        -- injection H as Hv <-.
           apply response_verdict_true in Hv as [-> ->].
           repeat split. exists (Str.lower (Str.of_chars rest)), mx, w1.
           auto.
        -- destruct (smtp_handler_outcome e w2) as [(d & E & _)|[_ E]];
             rewrite E in H; discriminate.
      * destruct (is_Exception e); discriminate.
    + rewrite verify_email_bad_format in H by assumption. discriminate.
  - intros (-> & Hf & domain & mx & w1 & Hd & Hmx & Hp).
    rewrite (verify_email_eq net self email domain w Hf Hd), Hmx, Hp.
    reflexivity.
Qed.

Lemma valid_only_on_250_witness :
  "Email address exists" = "Email address exists"
  /\ _is_valid_email_format "user@example.com" = true
  /\ exists domain mx_record w1,
       domain_of "user@example.com" 0%nat = (Ok domain, 0%nat)
       /\ mx_lookup (net_replying 250) domain 0%nat = (Ok mx_record, w1)
       /\ rcpt_probe (net_replying 250) default_verifier mx_record
            "user@example.com" w1 = (Ok 250, 7%nat).
Proof.
  apply (proj1 (valid_only_on_250 (net_replying 250) default_verifier
                  "user@example.com" "Email address exists" 0%nat 7%nat)).
  reflexivity.
Defined.

(** C1, as the code has it.  When the conversation raises
    [socket.timeout], [verify_email] returns [False] with "SMTP connection
    timeout", and the loop of [verify_emails] gives that result the
    status Invalid.  The status Error is given to one result only: the
    detail "error" of the outermost handler. *)
Theorem timeout_is_reported_invalid {W : Type} (net : Net W)
    (self : EmailVerifier) (email domain mx_record : string) (e : exn)
    (w w1 w2 : W) :
  _is_valid_email_format email = true ->
  domain_of email w = (Ok domain, w) ->
  mx_lookup net domain w = (Ok mx_record, w1) ->
  rcpt_probe net self mx_record email w1 = (Raise e, w2) ->
  exn_cls e = socket_timeout ->
  verify_email net self email w
  = (Ok (false, "SMTP connection timeout"), w2)
  /\ verification_status (false, "SMTP connection timeout") = Invalid
  /\ (forall b d, verification_status (b, d) = Error ->
                  b = false /\ d = "error").
Proof.
  intros Hf Hd Hmx Hp He. split; [|split].
  - rewrite (verify_email_eq net self email domain w Hf Hd), Hmx, Hp.
    unfold smtp_handler. now rewrite He.
  - reflexivity.
  - intros b d H. now apply verification_status_Error.
Qed.

Lemma timeout_is_reported_invalid_witness :
  verify_email net_timing_out default_verifier "user@example.com" 0%nat
  = (Ok (false, "SMTP connection timeout"), 2%nat)
  /\ verification_status (false, "SMTP connection timeout") = Invalid
  /\ (forall b d, verification_status (b, d) = Error ->
                  b = false /\ d = "error").
Proof.
  apply (timeout_is_reported_invalid net_timing_out default_verifier
           "user@example.com" "example.com" "mx.example.com"
           (Exn socket_timeout "timed out") 0%nat 1%nat 2%nat);
    reflexivity.
Defined.

(** C1, as stated, fails: on a network whose server lets the connection
    time out, the probe of a well-formed address raises [socket.timeout]
    and the status given to the result is Invalid, not Error. *)
Lemma timeout_is_not_error :
  rcpt_probe net_timing_out default_verifier "mx.example.com"
    "user@example.com" 1%nat
  = (Raise (Exn socket_timeout "timed out"), 2%nat)
  /\ ~ (forall r w',
          verify_email net_timing_out default_verifier "user@example.com"
            0%nat = (Ok r, w') ->
          verification_status r = Error).
Proof.
  split; [reflexivity|].
  intros H.
  specialize (H (false, "SMTP connection timeout") 2%nat eq_refl).
  discriminate H.
Qed.

(** C7.  A well-formed address has one [@]; the domain is the lower-cased
    text after it.  When the MX query for that domain raises an exception
    (no such domain, no answer, a transport failure) or answers with no
    record, [verify_email] returns [False] with "No MX record found for
    domain: " followed by the domain; the status of that result is
    Invalid and its detail contains the domain. *)
Theorem resolution_failure_is_invalid {W : Type} (net : Net W)
    (self : EmailVerifier) (email : string) (w : W) :
  _is_valid_email_format email = true ->
  exists local_part rest domain,
    Str.chars email = local_part ++ "@"%char :: rest
    /\ domain = Str.lower (Str.of_chars rest)
    /\ domain_of email w = (Ok domain, w)
    /\ forall w1,
         ((exists e, resolve_MX net domain w = (Raise e, w1)
                     /\ is_Exception e = true)
          \/ resolve_MX net domain w = (Ok [], w1)) ->
         let details := ("No MX record found for domain: " ++ domain)%string in
         verify_email net self email w = (Ok (false, details), w1)
         /\ verification_status (false, details) = Invalid
         /\ Str.contains domain details.
Proof.
  intros Hf.
  destruct (domain_of_valid (W := W) email Hf) as (l & rest & E & Hd).
  exists l, rest, (Str.lower (Str.of_chars rest)).
  repeat split; auto.
  - rewrite (verify_email_eq net self email _ w Hf (Hd w)).
    unfold mx_lookup, bind.
    destruct H as [(e & -> & He)| ->].
    + now rewrite He.
    + reflexivity.
  - exists "No MX record found for domain: ", "".
    now rewrite append_empty_r.
Qed.

Lemma resolution_failure_is_invalid_witness :
  exists local_part rest domain,
    Str.chars "user@Example.COM" = local_part ++ "@"%char :: rest
    /\ domain = "example.com"
    /\ verify_email net_nxdomain default_verifier "user@Example.COM" 0%nat
       = (Ok (false, "No MX record found for domain: example.com"), 1%nat).
Proof.
  destruct (resolution_failure_is_invalid net_nxdomain default_verifier
              "user@Example.COM" 0%nat eq_refl)
    as (l & rest & domain & E & Edom & Hd & H).
  assert (Hdom : domain = "example.com").
  { unfold domain_of, bind, lift, ret in Hd. simpl in Hd.
    injection Hd as Hd. now symmetry. }
  exists l, rest, domain. split; [exact E|]. split; [exact Hdom|].
  destruct (H 1%nat) as (Hv & _ & _).
  - left. exists (Exn NXDOMAIN "no such domain"). rewrite Hdom.
    split; reflexivity.
  - rewrite Hv, Hdom. reflexivity.
Defined.

(** The text [verify_email] gives to each failure of the conversation. *)
Lemma smtp_failure_texts {W : Type} (net : Net W) (self : EmailVerifier)
    (email domain mx_record : string) (e : exn) (w w1 w2 : W) :
  _is_valid_email_format email = true ->
  domain_of email w = (Ok domain, w) ->
  mx_lookup net domain w = (Ok mx_record, w1) ->
  rcpt_probe net self mx_record email w1 = (Raise e, w2) ->
  is_Exception e = true ->
  verify_email net self email w =
    (Ok (false,
         match exn_cls e with
         | SMTPConnectError => "Cannot connect to SMTP server"
         | SMTPServerDisconnected => "SMTP server disconnected"
         | SMTPRecipientsRefused => "Recipient refused"
         | socket_timeout => "SMTP connection timeout"
         | _ => ("SMTP error: " ++ exn_str e)%string
         end), w2).
Proof.
  intros Hf Hd Hmx Hp He.
  rewrite (verify_email_eq net self email domain w Hf Hd), Hmx, Hp.
  unfold smtp_handler, except_Exception. rewrite He.
  destruct (exn_cls e); reflexivity.
Qed.

(** C8.  On a network whose calls raise instances of [Exception] only
    (format, resolution, connection, disconnection, timeout, protocol and
    any other transport error are such), [verify_email] raises nothing:
    it returns a pair of a boolean and a non-empty detail, and each kind
    of failure is answered [False] with its own text.  A string the
    format check rejects gives "Invalid email format"; a failed MX
    lookup gives "No MX record found for domain: " and the domain; a
    conversation that raises gives the text of the exception class
    (connection, disconnection, refusal, timeout) or "SMTP error: " and
    the message; a reply to RCPT other than 250 gives the text of its
    code.  Each of these results has the status Invalid, Error being
    that of the detail "error" alone. *)
Theorem verify_email_never_raises {W : Type} (net : Net W)
    (self : EmailVerifier) (email : string) (w : W) :
  net_only_Exception net ->
  exists is_valid details w',
    verify_email net self email w = (Ok (is_valid, details), w')
    /\ details <> ""
    /\ (is_valid = false ->
        verification_status (is_valid, details) = Invalid
        \/ verification_status (is_valid, details) = Error)
    /\ (_is_valid_email_format email = false ->
        is_valid = false /\ details = "Invalid email format" /\ w' = w
        /\ verification_status (is_valid, details) = Invalid)
    /\ (forall domain,
          _is_valid_email_format email = true ->
          domain_of email w = (Ok domain, w) ->
          (forall e w1,
             mx_lookup net domain w = (Raise e, w1) ->
             is_valid = false
             /\ details
                = ("No MX record found for domain: " ++ domain)%string
             /\ w' = w1
             /\ verification_status (is_valid, details) = Invalid)
          /\ (forall mx_record w1 e w2,
                mx_lookup net domain w = (Ok mx_record, w1) ->
                rcpt_probe net self mx_record email w1 = (Raise e, w2) ->
                is_valid = false
                /\ details
                   = match exn_cls e with
                     | SMTPConnectError => "Cannot connect to SMTP server"
                     | SMTPServerDisconnected => "SMTP server disconnected"
                     | SMTPRecipientsRefused => "Recipient refused"
                     | socket_timeout => "SMTP connection timeout"
                     | _ => ("SMTP error: " ++ exn_str e)%string
                     end
                /\ w' = w2
                /\ verification_status (is_valid, details) = Invalid)
          /\ (forall mx_record w1 code w2,
                mx_lookup net domain w = (Ok mx_record, w1) ->
                rcpt_probe net self mx_record email w1 = (Ok code, w2) ->
                code <> 250 ->
                is_valid = false
                /\ details = snd (response_verdict code)
                /\ w' = w2
                /\ verification_status (is_valid, details) = Invalid)).
Proof.
  intros Hnet.
  destruct (verify_email_returns net Hnet self email w)
    as (b & d & w' & E & Hd).
  exists b, d, w'. split; [exact E|]. split; [exact Hd|]. split.
  { intros ->. unfold verification_status.
    destruct (String.eqb d "error"); auto. }
  split.
  { intros Hf. rewrite (verify_email_bad_format net self email w Hf) in E.
    injection E as <- <- <-. repeat split. }
  intros domain Hf Hdom.
  rewrite (verify_email_eq net self email domain w Hf Hdom) in E.
  split; [|split].
  - intros e w1 Hmx. rewrite Hmx in E.
    rewrite (mx_lookup_only_Exception net Hnet domain w e w1 Hmx) in E.
    injection E as <- <- <-. repeat split.
  - intros mx_record w1 e w2 Hmx Hp. rewrite Hmx, Hp in E.
    pose proof (rcpt_probe_only_Exception net Hnet self mx_record email
                  w1 e w2 Hp) as He.
    unfold smtp_handler, except_Exception in E. rewrite He in E.
    unfold is_Exception in He. unfold ret in E.
    destruct (exn_cls e); try discriminate He;
      injection E as <- <- <-; repeat split.
  - intros mx_record w1 code w2 Hmx Hp Hcode. rewrite Hmx, Hp in E.
    injection E as Hv <-.
    apply Z.eqb_neq in Hcode.
    unfold response_verdict in *. rewrite Hcode in *.
    repeat match type of Hv with
           | context [if ?c then _ else _] => destruct c
           end; injection Hv as <- <-; repeat split.
Qed.

Lemma verify_email_never_raises_witness :
  exists is_valid details w',
    verify_email net_timing_out default_verifier "user@example.com" 0%nat
    = (Ok (is_valid, details), w')
    /\ is_valid = false
    /\ details = "SMTP connection timeout"
    /\ verification_status (is_valid, details) = Invalid.
Proof.
  destruct (verify_email_never_raises net_timing_out default_verifier
              "user@example.com" 0%nat)
    as (b & d & w' & E & _ & _ & _ & H).
  - apply scripted_only_Exception; reflexivity.
  - exists b, d, w'. split; [exact E|].
    destruct (H "example.com" eq_refl eq_refl) as (_ & Hsmtp & _).
    destruct (Hsmtp "mx.example.com" 1%nat (Exn socket_timeout "timed out")
                2%nat eq_refl eq_refl) as (Hb & Hdet & _ & Hst).
    split; [exact Hb|]. split; [exact Hdet | exact Hst].
Defined.

(* ------------------------------------------------------------------ *)
(** ** The format checks *)

Lemma match_needs_at_and_dot (s : string) :
  Re.match_anchored pattern s = true ->
  Str.has_char "@" s
  /\ forall u v, Str.chars s = u ++ "@"%char :: v -> In "."%char v.
Proof.
  intros H. apply match_one_at in H as (l & rest & E & _ & Hl & Hr & Hdot).
  split.
  - unfold Str.has_char. rewrite E. apply in_or_app. right. now left.
  - intros u v Euv. rewrite E in Euv.
    destruct (split_unique _ _ _ _ _ Euv Hl Hr) as [_ <-]. assumption.
Qed.

Lemma stripped_match_needs_at_and_dot (s : string) :
  Re.match_anchored pattern (Str.strip s) = true ->
  Str.has_char "@" s
  /\ forall u v, Str.chars s = u ++ "@"%char :: v -> In "."%char v.
Proof.
  intros H. apply match_one_at in H as (l & rest & E & _ & Hl & Hr & Hdot).
  destruct (strip_split s) as (a & b & Es & Ha & Hb).
  rewrite E in Es.
  assert (Es' : Str.chars s = (a ++ l) ++ "@"%char :: (rest ++ b)).
  { rewrite Es, <- !app_assoc. reflexivity. }
  assert (Hl' : ~ In "@"%char (a ++ l)).
  { intros Hin. apply in_app_or in Hin as [Hin|Hin]; [|auto].
    exact (Forall_class_not_in Str.isspace "@"%char a eq_refl Ha Hin). }
  assert (Hr' : ~ In "@"%char (rest ++ b)).
  { intros Hin. apply in_app_or in Hin as [Hin|Hin]; [auto|].
    exact (Forall_class_not_in Str.isspace "@"%char b eq_refl Hb Hin). }
  split.
  - unfold Str.has_char. rewrite Es'. apply in_or_app. right. now left.
  - intros u v Euv. rewrite Es' in Euv.
    destruct (split_unique _ _ _ _ _ Euv Hl' Hr') as [_ <-].
    apply in_or_app. now left.
Qed.

(** C6.  A string with no [@], or with an [@] that no dot follows, is
    rejected by [_is_valid_email_format] and by the stripping check of
    [ExcelProcessor].  Both checks are functions from strings to booleans:
    they return on every string, the same value each time. *)
Theorem format_needs_at_and_dot (s : string) :
  (~ Str.has_char "@" s
   \/ exists u v, s = (u ++ "@" ++ v)%string /\ ~ Str.has_char "." v) ->
  _is_valid_email_format s = false /\ is_valid_email_format s = false.
Proof.
  intros H.
  assert (Hno : ~ (Str.has_char "@" s
                   /\ forall u v, Str.chars s = u ++ "@"%char :: v ->
                                  In "."%char v)).
  { intros [Hat Hdot]. destruct H as [H|(u & v & -> & Hv)]; [auto|].
    apply Hv. apply (Hdot (Str.chars u)).
    now rewrite !chars_append. }
  split.
  - destruct (_is_valid_email_format s) eqn:E; [|reflexivity].
    exfalso. apply Hno. now apply match_needs_at_and_dot.
  - destruct (is_valid_email_format s) eqn:E; [|reflexivity].
    exfalso. apply Hno. now apply stripped_match_needs_at_and_dot.
Qed.

Lemma format_needs_at_and_dot_witness :
  _is_valid_email_format "user@localhost" = false
  /\ is_valid_email_format "user@localhost" = false.
Proof.
  apply (format_needs_at_and_dot "user@localhost").
  right. exists "user", "localhost". split; [reflexivity|].
  unfold Str.has_char. simpl. intros H.
  repeat (destruct H as [H|H]; [discriminate H|]). exact H.
Defined.

(** C5.  [ExcelProcessor.is_valid_email_format] strips the string and
    then matches it; [EmailVerifier._is_valid_email_format] matches the
    string as it is.  An address with a space before and after it passes
    the first and fails the second, so [verify_email] answers "Invalid
    email format" for a cell the spreadsheet check has accepted. *)
Theorem verifier_check_does_not_strip :
  (forall s, is_valid_email_format s = _is_valid_email_format (Str.strip s))
  /\ Str.strip " user@example.com " = "user@example.com"
  /\ is_valid_email_format " user@example.com " = true
  /\ _is_valid_email_format " user@example.com " = false
  /\ forall (W : Type) (net : Net W) (self : EmailVerifier) (w : W),
       verify_email net self " user@example.com " w
       = (Ok (false, "Invalid email format"), w).
Proof.
  repeat split.
Qed.

(* ------------------------------------------------------------------ *)
(** ** The MX lookup *)

(** C4, as the code has it.  When the MX query answers with at least one
    record, [verify_email] probes the exchanger of the first record, in
    the order in which the resolver gave the records, with every trailing
    dot removed; the preference values are not read. *)
Theorem first_record_is_probed {W : Type} (net : Net W) (domain : string)
    (record : MX) (records : list MX) (w w1 : W) :
  resolve_MX net domain w = (Ok (record :: records), w1) ->
  exists host dots,
    mx_lookup net domain w = (Ok host, w1)
    /\ Str.chars (exchange record) = Str.chars host ++ dots
    /\ Forall (fun c => c = "."%char) dots
    /\ forall pre c, Str.chars host = pre ++ [c] -> c <> "."%char.
Proof.
  intros H.
  exists (Str.rstrip (Str.is_char ".") (exchange record)).
  destruct (rstrip_chars_split (Str.is_char ".") (Str.chars (exchange record)))
    as (dots & E & Hdots).
  exists dots. repeat split.
  - unfold mx_lookup, bind. rewrite H. reflexivity.
  - unfold Str.rstrip. rewrite chars_of_chars. assumption.
  - eapply Forall_impl; [|exact Hdots].
    intros c Hc. unfold Str.is_char in Hc. now apply Ascii.eqb_eq.
  - unfold Str.rstrip. rewrite chars_of_chars. intros pre c Ec ->.
    apply rstrip_chars_last in Ec. discriminate.
Qed.

Lemma first_record_is_probed_witness :
  exists host dots,
    mx_lookup net_two_mx "example.com" 0%nat = (Ok host, 1%nat)
    /\ Str.chars "mx2.example.com." = Str.chars host ++ dots
    /\ Forall (fun c => c = "."%char) dots
    /\ forall pre c, Str.chars host = pre ++ [c] -> c <> "."%char.
Proof.
  apply (first_record_is_probed net_two_mx "example.com"
           {| preference := 20; exchange := "mx2.example.com." |}
           [ {| preference := 10; exchange := "mx1.example.com." |} ]
           0%nat 1%nat).
  reflexivity.
Defined.

(** C4, as stated, fails: for an answer that lists the exchanger of
    preference 20 before the one of preference 10, the host the code
    takes is the former, while the targets by ascending preference start
    with the latter; [get_domain_info] lists the hosts in answer order
    too. *)
Lemma answer_order_is_not_preference_order :
  mx_lookup net_two_mx "example.com" 0%nat = (Ok "mx2.example.com", 1%nat)
  /\ spec_resolveMailTargets two_mx = ["mx1.example.com"; "mx2.example.com"]
  /\ ~ (forall host w',
          mx_lookup net_two_mx "example.com" 0%nat = (Ok host, w') ->
          hd_error (spec_resolveMailTargets two_mx) = Some host)
  /\ ~ (forall info w',
          get_domain_info net_two_mx "user@example.com" 0%nat
          = (Ok info, w') ->
          mx_records info = spec_resolveMailTargets two_mx).
Proof.
  split; [reflexivity|]. split; [reflexivity|]. split.
  - intros H. specialize (H "mx2.example.com" 1%nat eq_refl).
    discriminate H.
  - intros H.
    specialize (H {| domain := "example.com";
                     mx_records := ["mx2.example.com"; "mx1.example.com"];
                     a_records := one_a;
                     has_mx := true; resolvable := true; error := None |}
                  2%nat eq_refl).
    discriminate H.
Qed.

(* ------------------------------------------------------------------ *)
(** ** [get_domain_info] *)

Section DomainInfo.

Context {W : Type} (net : Net W).

(** Indexing the split address returns, or raises [IndexError]. *)
Lemma domain_of_outcome (email : string) (w : W) :
  (exists d, domain_of email w = (Ok d, w))
  \/ (exists e, domain_of email w = (Raise e, w) /\ is_Exception e = true).
Proof.
  unfold domain_of, bind, lift, getitem, ret.
  destruct (nth_error (Str.split "@" email) 1); [left|right]; eauto.
Qed.

Lemma get_domain_info_no_domain (email : string) (e : exn) (w w0 : W) :
  domain_of email w = (Raise e, w0) ->
  get_domain_info net email w
  = (Ok {| domain := "unknown"; mx_records := []; a_records := [];
           has_mx := false; resolvable := false;
           error := Some (exn_str e) |}, w).
Proof.
  intros H.
  destruct (domain_of_outcome email w) as [(d & E)|(e' & E & He)];
    [congruence|].
  assert (e' = e) by congruence. subst e'.
  unfold get_domain_info, catch, bind. rewrite E.
  unfold except_Exception. now rewrite He.
Qed.

Lemma get_domain_info_eq (email domain : string) (w : W) :
  domain_of email w = (Ok domain, w) ->
  get_domain_info net email w =
    let '(r1, w1) := resolve_MX net domain w in
    let '(r2, w2) := resolve_A net domain w1 in
    let mx_list :=
      match r1 with
      | Ok records =>
          map (fun record => Str.rstrip (Str.is_char ".") (exchange record))
            records
      | Raise _ => []
      end in
    let a_list := match r2 with Ok records => records | Raise _ => [] end in
    (Ok {| domain := domain; mx_records := mx_list; a_records := a_list;
           has_mx := Nat.ltb 0 (List.length mx_list);
           resolvable := Nat.ltb 0 (List.length a_list);
           error := None |}, w2).
Proof.
  intros Hd. unfold get_domain_info, catch at 1, bind at 1. rewrite Hd.
  unfold bind at 1, catch at 1, bind at 1.
  destruct (resolve_MX net domain w) as [[rs|e] w1];
    unfold ret at 1; unfold bind at 1, catch at 1, bind at 1;
    destruct (resolve_A net domain w1) as [[rs'|e'] w2]; reflexivity.
Qed.

End DomainInfo.

(** C9, as the code has it.  [get_domain_info] always returns.  An MX
    query that raises leaves [mx_records] empty and [has_mx] false; an A
    query that raises leaves [a_records] empty and [resolvable] false;
    each query decides its own pair.  For an address without [@] both
    lists are empty and both flags false. *)
Theorem get_domain_info_never_raises {W : Type} (net : Net W)
    (email : string) (w : W) :
  exists info w',
    get_domain_info net email w = (Ok info, w')
    /\ (forall e w0,
          domain_of email w = (Raise e, w0) ->
          mx_records info = [] /\ a_records info = []
          /\ has_mx info = false /\ resolvable info = false)
    /\ (forall d e w1,
          domain_of email w = (Ok d, w) ->
          resolve_MX net d w = (Raise e, w1) ->
          mx_records info = [] /\ has_mx info = false)
    /\ (forall d r w1 e w2,
          domain_of email w = (Ok d, w) ->
          resolve_MX net d w = (r, w1) ->
          resolve_A net d w1 = (Raise e, w2) ->
          a_records info = [] /\ resolvable info = false).
Proof.
  destruct (domain_of_outcome email w) as [(d & E)|(e & E & He)].
  - rewrite (get_domain_info_eq net email d w E).
    destruct (resolve_MX net d w) as [r1 w1] eqn:E1.
    destruct (resolve_A net d w1) as [r2 w2] eqn:E2.
    do 2 eexists. split; [reflexivity|]. simpl.
    split; [intros; congruence|]. split.
    + intros d' e' w1' Hd' H.
      assert (d' = d) by congruence. subst d'.
      rewrite E1 in H. injection H as -> _. auto.
    + intros d' r w1' e' w2' Hd' H1 H2.
      assert (d' = d) by congruence. subst d'.
      rewrite E1 in H1. injection H1 as _ <-.
      rewrite E2 in H2. injection H2 as -> _. auto.
  - rewrite (get_domain_info_no_domain net email e w w E).
    do 2 eexists. split; [reflexivity|]. simpl.
    repeat split; intros; congruence.
Qed.

Lemma get_domain_info_never_raises_witness :
  exists info w',
    get_domain_info net_nxdomain "user@example.com" 0%nat = (Ok info, w')
    /\ mx_records info = [] /\ has_mx info = false
    /\ a_records info = [] /\ resolvable info = false.
Proof.
  destruct (get_domain_info_never_raises net_nxdomain "user@example.com"
              0%nat) as (info & w' & E & _ & Hmx & Ha).
  exists info, w'. split; [exact E|].
  destruct (Hmx "example.com" (Exn NXDOMAIN "no such domain") 1%nat
              eq_refl eq_refl) as [H1 H2].
  destruct (Ha "example.com" (Raise (Exn NXDOMAIN "no such domain")) 1%nat
              (Exn NXDOMAIN "no such domain") 2%nat eq_refl eq_refl eq_refl)
    as [H3 H4].
  auto.
Defined.

(** C9, as stated, fails: for a domain whose MX query raises while its A
    query answers, the record has an address list that is not empty and
    [resolvable] is true. *)
Lemma one_failure_does_not_empty_both :
  resolve_MX net_without_mx "example.com" 0%nat
  = (Raise (Exn NoAnswer "no MX"), 1%nat)
  /\ ~ (forall info w',
          get_domain_info net_without_mx "user@example.com" 0%nat
          = (Ok info, w') ->
          mx_records info = [] /\ a_records info = []
          /\ has_mx info = false /\ resolvable info = false).
Proof.
  split; [reflexivity|]. intros H.
  specialize (H {| domain := "example.com"; mx_records := [];
                   a_records := one_a; has_mx := false;
                   resolvable := true; error := None |} 2%nat eq_refl).
  destruct H as (_ & H & _). discriminate H.
Qed.

(* ------------------------------------------------------------------ *)
(** ** The batch *)

Lemma dict_set_new (k : string) (v : entry) (d : dict) :
  ~ In k (map fst d) -> dict_set k v d = d ++ [(k, v)].
Proof.
  induction d as [|[k' v'] d IH]; simpl; intros H; [reflexivity|].
  destruct (String.eqb_spec k' k) as [->|Hne].
  - exfalso. apply H. now left.
  - rewrite IH; [reflexivity|]. intros Hin. apply H. now right.
Qed.

Lemma dict_set_present (k : string) (v : entry) (d : dict) :
  In k (map fst d) -> map fst (dict_set k v d) = map fst d.
Proof.
  induction d as [|[k' v'] d IH]; simpl; intros H; [contradiction|].
  destruct (String.eqb_spec k' k) as [->|Hne]; [reflexivity|].
  simpl. rewrite IH; [reflexivity|].
  destruct H as [H|H]; [contradiction | assumption].
Qed.

Lemma dict_set_keys (k : string) (v : entry) (d : dict) (k' : string) :
  In k' (map fst (dict_set k v d)) <-> k' = k \/ In k' (map fst d).
Proof.
  destruct (in_dec string_dec k (map fst d)) as [Hin|Hnin].
  - rewrite dict_set_present by assumption.
    split; [auto | intros [->|H]; assumption].
  - rewrite dict_set_new by assumption.
    rewrite map_app, in_app_iff. simpl. intuition congruence.
Qed.

Lemma dict_set_NoDup (k : string) (v : entry) (d : dict) :
  NoDup (map fst d) -> NoDup (map fst (dict_set k v d)).
Proof.
  intros H. destruct (in_dec string_dec k (map fst d)) as [Hin|Hnin].
  - now rewrite dict_set_present.
  - rewrite dict_set_new, map_app by assumption. simpl.
    apply NoDup_app; [assumption | repeat constructor; intros [] |].
    intros x Hx [<-|[]]. contradiction.
Qed.

Lemma last_is_member (l : list string) (d : string) :
  l <> [] -> In (last l d) l.
Proof.
  induction l as [|x l IH]; [congruence|]. intros _.
  destruct l as [|y l]; [now left|].
  right. apply IH. discriminate.
Qed.

Lemma count_status_cons (s : status) (kv : string * entry) (results : dict) :
  count_status s (kv :: results)
  = ((if status_eqb (entry_status kv) s then 1 else 0)
     + count_status s results)%nat.
Proof.
  unfold count_status. simpl.
  destruct (status_eqb (entry_status kv) s); reflexivity.
Qed.

Lemma entry_status_cases (kv : string * entry) :
  entry_status kv = Valid \/ entry_status kv = Invalid
  \/ entry_status kv = Error.
Proof.
  unfold entry_status, verification_status.
  destruct (is_valid (snd kv)); [auto|].
  destruct (String.eqb (details (snd kv)) "error"); auto.
Qed.

(** Every record has one of the three statuses of a verified row. *)
Lemma count_status_partition (results : dict) :
  (count_status Valid results + count_status Invalid results
   + count_status Error results = List.length results)%nat
  /\ count_status InvalidFormat results = 0%nat
  /\ count_status NotChecked results = 0%nat.
Proof.
  induction results as [|kv results (IH1 & IH2 & IH3)]; [now compute|].
  rewrite !count_status_cons. simpl List.length.
  destruct (entry_status_cases kv) as [-> | [-> | ->]]; simpl; lia.
Qed.

Section Batch.

Context {W : Type} (net : Net W).
Variables (self : EmailVerifier) (delay : Q).

(** On distinct addresses the loop builds what the specified batch
    builds, world for world. *)
Lemma batch_loop_distinct (last_email : string) (emails : list string) :
  forall (acc : dict) (w : W),
    NoDup (map fst acc ++ emails) ->
    (emails <> [] -> last_email = last emails "") ->
    batch_loop net self delay last_email emails acc w =
      match spec_runBatch net self delay emails w with
      | (Ok records, w') => (Ok (acc ++ records), w')
      | (Raise e, w') => (Raise e, w')
      end.
Proof.
  induction emails as [|email rest IH]; intros acc w Hnd Hlast.
  - simpl. unfold ret. now rewrite app_nil_r.
  - cbn [batch_loop spec_runBatch]. unfold bind at 1 3.
    destruct (verify_email net self email w) as [[[v d]|e] w1];
      [|reflexivity].
    assert (Hacc : ~ In email (map fst acc) /\ ~ In email rest).
    { apply NoDup_remove_2 in Hnd. rewrite in_app_iff in Hnd. tauto. }
    destruct Hacc as [Hacc Hrest].
    assert (Hsleep :
              (if negb (String.eqb email last_email)
               then time_sleep net delay else ret tt)
              = match rest with
                | [] => ret tt
                | _ :: _ => time_sleep net delay
                end).
    { rewrite Hlast by discriminate.
      destruct rest as [|x rest'].
      - simpl. now rewrite String.eqb_refl.
      - destruct (String.eqb_spec email (last (email :: x :: rest') ""))
          as [E|_]; [|reflexivity].
        exfalso. apply Hrest. rewrite E.
        change (last (email :: x :: rest') "") with (last (x :: rest') "").
        apply last_is_member. discriminate. }
    rewrite Hsleep. unfold bind at 1 2.
    destruct (match rest with
              | [] => ret tt
              | _ :: _ => time_sleep net delay
              end w1) as [[[]|e] w2]; [|reflexivity].
    rewrite IH.
    + unfold bind.
      destruct (spec_runBatch net self delay rest w2) as [[records|e] w3];
        [|reflexivity].
      unfold ret. rewrite dict_set_new by assumption.
      now rewrite <- app_assoc.
    + rewrite dict_set_new, map_app, <- app_assoc by assumption.
      exact Hnd.
    + intros Hne. rewrite Hlast by discriminate.
      destruct rest; [congruence | reflexivity].
Qed.

Hypothesis Hnet : net_only_Exception net.
Hypothesis Hsleep : sleep_returns net delay.

(** The loop returns; its keys are those it had and the addresses seen,
    each once. *)
Lemma batch_loop_returns (last_email : string) (emails : list string) :
  forall (acc : dict) (w : W),
    NoDup (map fst acc) ->
    exists results w',
      batch_loop net self delay last_email emails acc w = (Ok results, w')
      /\ NoDup (map fst results)
      /\ forall k, In k (map fst results) <->
                   In k (map fst acc) \/ In k emails.
Proof.
  induction emails as [|email rest IH]; intros acc w Hnd.
  - exists acc, w. simpl. unfold ret. intuition.
  - cbn [batch_loop]. unfold bind at 1.
    destruct (verify_email_returns net Hnet self email w)
      as (b & d & w1 & -> & _).
    unfold bind at 1.
    assert (Hs : exists w2,
               (if negb (String.eqb email last_email)
                then time_sleep net delay else ret tt) w1 = (Ok tt, w2)).
    { destruct (negb (String.eqb email last_email));
        [apply Hsleep | now exists w1]. }
    destruct Hs as (w2 & ->).
    destruct (IH (dict_set email {| is_valid := b; details := d |} acc) w2)
      as (results & w' & E & Hnd' & Hkeys).
    { now apply dict_set_NoDup. }
    exists results, w'. repeat split; [assumption..| |].
    + intros Hk. apply Hkeys in Hk as [Hk|Hk].
      * apply dict_set_keys in Hk as [->|Hk]; [right; now left | now left].
      * right. now right.
    + intros [Hk|[<-|Hk]]; apply Hkeys.
      * left. apply dict_set_keys. now right.
      * left. apply dict_set_keys. now left.
      * now right.
Qed.

End Batch.

Lemma spec_runBatch_keys {W : Type} (net : Net W) (self : EmailVerifier)
    (delay : Q) (emails : list string) :
  forall (w w' : W) (records : list (string * entry)),
    spec_runBatch net self delay emails w = (Ok records, w') ->
    map fst records = emails.
Proof.
  induction emails as [|email rest IH]; intros w w' records; simpl.
  - unfold ret. intros H. injection H as <- _. reflexivity.
  - unfold bind at 1.
    destruct (verify_email net self email w) as [[[v d]|e] w1];
      [|discriminate].
    unfold bind at 1.
    destruct (match rest with
              | [] => ret tt
              | _ :: _ => time_sleep net delay
              end w1) as [[[]|e] w2]; [|discriminate].
    unfold bind at 1.
    destruct (spec_runBatch net self delay rest w2) as [[rs|e] w3] eqn:E;
      [|discriminate].
    unfold ret. intros H. injection H as <- _.
    simpl. f_equal. eapply IH. eassumption.
Qed.

(** C2, as the code has it.  On a network whose calls raise instances of
    [Exception] only and whose [sleep] returns, [verify_email_batch]
    returns a dictionary with one record per distinct address: its keys
    are the addresses of the input, each once, so it has at most N
    records.  When the N addresses are pairwise distinct it has exactly N
    records, in input order, and they are the records of the specified
    batch.  The function keeps no counters; by the statuses
    [verify_emails] gives, the valid, invalid and error records add up
    to the number of records, a format failure counting as invalid. *)
Theorem batch_one_record_per_distinct_address {W : Type} (net : Net W)
    (self : EmailVerifier) (delay : Q) (emails : list string) (w : W) :
  net_only_Exception net ->
  sleep_returns net delay ->
  exists results w',
    verify_email_batch net self emails delay w = (Ok results, w')
    /\ NoDup (map fst results)
    /\ (forall k, In k (map fst results) <-> In k emails)
    /\ (List.length results <= List.length emails)%nat
    /\ (NoDup emails ->
        map fst results = emails
        /\ List.length results = List.length emails
        /\ spec_runBatch net self delay emails w = (Ok results, w'))
    /\ (count_status Valid results + count_status Invalid results
        + count_status Error results = List.length results)%nat
    /\ count_status InvalidFormat results = 0%nat.
Proof.
  intros Hnet Hsleep. unfold verify_email_batch.
  destruct (batch_loop_returns net self delay Hnet Hsleep
              (last emails "") emails [] w (NoDup_nil _))
    as (results & w' & E & Hnd & Hkeys).
  assert (Hk : forall k, In k (map fst results) <-> In k emails).
  { intros k. rewrite Hkeys. simpl. tauto. }
  exists results, w'. split; [exact E|]. split; [exact Hnd|].
  split; [exact Hk|]. split; [|split].
  - rewrite <- (length_map fst results).
    apply NoDup_incl_length; [exact Hnd|].
    intros k. apply Hk.
  - intros Hdistinct.
    rewrite (batch_loop_distinct net self delay (last emails "") emails
               [] w Hdistinct (fun _ => eq_refl)) in E.
    destruct (spec_runBatch net self delay emails w)
      as [[records|e] w1] eqn:Es; [|discriminate].
    simpl in E. injection E as <- <-.
    pose proof (spec_runBatch_keys net self delay emails w w1 records Es)
      as Hm.
    split; [exact Hm|]. split; [|reflexivity].
    now rewrite <- Hm, length_map.
  - pose proof (count_status_partition results) as (H1 & H2 & _). auto.
Qed.

Lemma batch_one_record_per_distinct_address_witness :
  exists results w',
    verify_email_batch (net_replying 250) default_verifier
      ["a@b.com"; "not-an-email"; "c@d.org"] 0%Q 0%nat = (Ok results, w')
    /\ map fst results = ["a@b.com"; "not-an-email"; "c@d.org"]
    /\ List.length results = 3%nat
    /\ (count_status Valid results + count_status Invalid results
        + count_status Error results = List.length results)%nat.
Proof.
  destruct (batch_one_record_per_distinct_address (net_replying 250)
              default_verifier 0%Q ["a@b.com"; "not-an-email"; "c@d.org"]
              0%nat)
    as (results & w' & E & _ & _ & _ & Hd & Hc & _).
  - apply scripted_only_Exception; reflexivity.
  - apply scripted_sleep_returns.
  - exists results, w'.
    destruct Hd as (Hm & Hl & _).
    + repeat constructor; simpl; intros H;
        repeat (destruct H as [H|H]; [discriminate H|]); exact H.
    + auto.
Defined.

(** C2, as stated, fails: an input that holds the same address at two
    positions yields one record, not two. *)
Lemma duplicates_share_one_record :
  verify_email_batch (net_replying 250) default_verifier
    ["a@b.com"; "a@b.com"] 0%Q 0%nat
  = (Ok [("a@b.com",
          {| is_valid := true; details := "Email address exists" |})],
     14%nat)
  /\ ~ (forall results w',
          verify_email_batch (net_replying 250) default_verifier
            ["a@b.com"; "a@b.com"] 0%Q 0%nat = (Ok results, w') ->
          List.length results = List.length ["a@b.com"; "a@b.com"]).
Proof.
  split; [reflexivity|]. intros H.
  specialize (H _ _ eq_refl). discriminate H.
Qed.

(* ------------------------------------------------------------------ *)
(** * Further properties of the code *)

(** ** The strings the format checks accept *)

Ltac each_ascii c :=
  destruct c as [[] [] [] [] [] [] [] []]; try reflexivity; try discriminate.

Lemma lang_star_class_intro (p : ascii -> bool) (w : list ascii) :
  Forall (fun c => p c = true) w -> Re.lang (Re.Star (Re.Class p)) w.
Proof.
  induction 1 as [|c w Hc _ IH]; [constructor|].
  change (c :: w) with ([c] ++ w).
  constructor; [now constructor | exact IH].
Qed.

Lemma lang_plus_class_intro (p : ascii -> bool) (w : list ascii) :
  w <> [] -> Forall (fun c => p c = true) w ->
  Re.lang (Re.Plus (Re.Class p)) w.
Proof.
  intros Hne Hw. destruct w as [|c w]; [congruence|].
  inversion Hw; subst.
  change (c :: w) with ([c] ++ w).
  constructor; [now constructor | now apply lang_star_class_intro].
Qed.

Lemma pattern_shape_complete (l d t : list ascii) :
  l <> [] -> Forall (fun c => local_char c = true) l ->
  d <> [] -> Forall (fun c => domain_char c = true) d ->
  (2 <= List.length t)%nat -> Forall (fun c => Str.is_alpha c = true) t ->
  Re.lang pattern (l ++ "@"%char :: d ++ "."%char :: t).
Proof.
  intros Hl1 Hl Hd1 Hd Ht2 Ht. unfold pattern, Re.AtLeast2.
  constructor; [now apply lang_plus_class_intro|].
  change ("@"%char :: d ++ "."%char :: t)
    with (["@"%char] ++ d ++ "."%char :: t).
  constructor; [now constructor|].
  constructor; [now apply lang_plus_class_intro|].
  change ("."%char :: t) with (["."%char] ++ t).
  constructor; [now constructor|].
  destruct t as [|x [|y z]]; simpl in Ht2; try lia.
  inversion Ht as [|? ? Hx Ht']; subst.
  inversion Ht' as [|? ? Hy Hz]; subst.
  change (x :: y :: z) with ([x] ++ [y] ++ z).
  constructor; [now constructor|].
  constructor; [now constructor | now apply lang_star_class_intro].
Qed.

(** X1.  [_is_valid_email_format] accepts exactly the strings made of a
    non-empty run of letters, digits and [._%+-], one [@], a non-empty
    run of letters, digits, dots and dashes, a dot, two or more letters,
    and then nothing or one newline. *)
Theorem format_accepts_exactly (s : string) :
  _is_valid_email_format s = true <->
  exists l d t nl,
    Str.chars s = l ++ "@"%char :: d ++ "."%char :: t ++ nl
    /\ l <> [] /\ Forall (fun c => local_char c = true) l
    /\ d <> [] /\ Forall (fun c => domain_char c = true) d
    /\ (2 <= List.length t)%nat
    /\ Forall (fun c => Str.is_alpha c = true) t
    /\ (nl = [] \/ nl = [Re.newline]).
Proof.
  unfold _is_valid_email_format. rewrite match_anchored_lang. split.
  - intros (w & nl & E & Hw & Hnl).
    apply pattern_shape in Hw as (l & d & t & -> & H).
    exists l, d, t, nl. split; [|tauto].
    rewrite E, <- app_assoc. simpl. now rewrite <- app_assoc.
  - intros (l & d & t & nl & E & Hl1 & Hl & Hd1 & Hd & Ht2 & Ht & Hnl).
    exists (l ++ "@"%char :: d ++ "."%char :: t), nl.
    split; [|split].
    + rewrite E, <- app_assoc. simpl. now rewrite <- app_assoc.
    + now apply pattern_shape_complete.
    + exact Hnl.
Qed.

Lemma format_accepts_exactly_witness :
  exists l d t nl,
    Str.chars "a@b.com" = l ++ "@"%char :: d ++ "."%char :: t ++ nl
    /\ l <> [] /\ Forall (fun c => local_char c = true) l
    /\ d <> [] /\ Forall (fun c => domain_char c = true) d
    /\ (2 <= List.length t)%nat
    /\ Forall (fun c => Str.is_alpha c = true) t
    /\ (nl = [] \/ nl = [Re.newline]).
Proof.
  apply (proj1 (format_accepts_exactly "a@b.com")). reflexivity.
Defined.

(** ** [strip] *)

Lemma lstrip_chars_idem (p : ascii -> bool) (l : list ascii) :
  Str.lstrip_chars p (Str.lstrip_chars p l) = Str.lstrip_chars p l.
Proof.
  induction l as [|c l IH]; simpl; [reflexivity|].
  destruct (p c) eqn:Hp; [exact IH|]. simpl. now rewrite Hp.
Qed.

Lemma lstrip_chars_drop (p : ascii -> bool) (a l : list ascii) :
  Forall (fun c => p c = true) a ->
  Str.lstrip_chars p (a ++ l) = Str.lstrip_chars p l.
Proof.
  induction 1 as [|c a Hc _ IH]; simpl; [reflexivity|]. now rewrite Hc.
Qed.

Lemma lstrip_chars_keep (p : ascii -> bool) (l : list ascii) :
  (forall c l', l = c :: l' -> p c = false) -> Str.lstrip_chars p l = l.
Proof.
  destruct l as [|c l]; simpl; [reflexivity|].
  intros H. now rewrite (H c l eq_refl).
Qed.

Lemma rstrip_chars_idem (p : ascii -> bool) (l : list ascii) :
  Str.rstrip_chars p (Str.rstrip_chars p l) = Str.rstrip_chars p l.
Proof.
  unfold Str.rstrip_chars. now rewrite rev_involutive, lstrip_chars_idem.
Qed.

Lemma rstrip_chars_drop (p : ascii -> bool) (l b : list ascii) :
  Forall (fun c => p c = true) b ->
  Str.rstrip_chars p (l ++ b) = Str.rstrip_chars p l.
Proof.
  intros Hb. unfold Str.rstrip_chars.
  rewrite rev_app_distr, lstrip_chars_drop; [reflexivity|].
  now apply Forall_rev.
Qed.

Lemma rstrip_chars_keep (p : ascii -> bool) (l : list ascii) (c : ascii) :
  p c = false -> Str.rstrip_chars p (l ++ [c]) = l ++ [c].
Proof.
  intros Hc. unfold Str.rstrip_chars.
  rewrite rev_app_distr. simpl. rewrite Hc. simpl.
  now rewrite rev_involutive.
Qed.

(** Stripping twice is stripping once. *)
Lemma strip_idem (s : string) : Str.strip (Str.strip s) = Str.strip s.
Proof.
  unfold Str.strip. rewrite chars_of_chars. f_equal.
  set (l1 := Str.lstrip_chars Str.isspace (Str.chars s)).
  rewrite (lstrip_chars_keep Str.isspace (Str.rstrip_chars Str.isspace l1)).
  - apply rstrip_chars_idem.
  - intros c l' E.
    destruct (rstrip_chars_split Str.isspace l1) as (b & Eb & _).
    rewrite E in Eb. simpl in Eb.
    apply (lstrip_chars_head Str.isspace (Str.chars s) c (l' ++ b)).
    exact Eb.
Qed.

Lemma is_valid_email_format_strip (s : string) :
  is_valid_email_format (Str.strip s) = is_valid_email_format s.
Proof. unfold is_valid_email_format. now rewrite strip_idem. Qed.

Lemma local_char_not_space (c : ascii) :
  local_char c = true -> Str.isspace c = false.
Proof. each_ascii c. Qed.

Lemma alpha_not_space (c : ascii) :
  Str.is_alpha c = true -> Str.isspace c = false.
Proof. each_ascii c. Qed.

(** What [strip] leaves of a string the verifier accepts: the string
    without its final newline. *)
Lemma strip_accepted (l d t nl : list ascii) :
  l <> [] -> Forall (fun c => local_char c = true) l ->
  (2 <= List.length t)%nat -> Forall (fun c => Str.is_alpha c = true) t ->
  nl = [] \/ nl = [Re.newline] ->
  Str.strip (Str.of_chars (l ++ "@"%char :: d ++ "."%char :: t ++ nl))
  = Str.of_chars (l ++ "@"%char :: d ++ "."%char :: t).
Proof.
  intros Hl1 Hl Ht2 Ht Hnl. unfold Str.strip. rewrite chars_of_chars.
  f_equal.
  rewrite lstrip_chars_keep.
  - assert (E : l ++ "@"%char :: d ++ "."%char :: t ++ nl
                = (l ++ "@"%char :: d ++ "."%char :: t) ++ nl).
    { rewrite <- app_assoc. simpl. now rewrite <- app_assoc. }
    rewrite E, rstrip_chars_drop
      by (destruct Hnl as [-> | ->]; repeat constructor).
    destruct (exists_last (l := t)) as (t' & c & ->).
    { intros ->. simpl in Ht2. lia. }
    assert (Hc : Str.isspace c = false).
    { apply alpha_not_space. rewrite Forall_forall in Ht. apply Ht.
      apply in_or_app. right. now left. }
    replace (l ++ "@"%char :: d ++ "."%char :: t' ++ [c])
      with ((l ++ "@"%char :: d ++ "."%char :: t') ++ [c]).
    + now apply rstrip_chars_keep.
    + rewrite <- app_assoc. simpl. now rewrite <- app_assoc.
  - intros c l' E. destruct l as [|c0 l0]; [congruence|].
    simpl in E. injection E as <- _.
    apply local_char_not_space. now inversion Hl.
Qed.

(** X2.  A string that [_is_valid_email_format] accepts is accepted by
    [ExcelProcessor.is_valid_email_format] too, and the verifier also
    accepts it once stripped: the spreadsheet check is the weaker one. *)
Theorem verifier_check_implies_processor_check (s : string) :
  _is_valid_email_format s = true ->
  is_valid_email_format s = true
  /\ _is_valid_email_format (Str.strip s) = true.
Proof.
  intros H. unfold _is_valid_email_format in H.
  apply match_anchored_lang in H as (core & nl & E & Hcore & Hnl).
  apply pattern_shape in Hcore
    as (l & d & t & -> & Hl1 & Hl & Hd1 & Hd & Ht2 & Ht).
  assert (Hs : _is_valid_email_format (Str.strip s) = true).
  { rewrite <- (of_chars_chars s), E.
    replace ((l ++ "@"%char :: d ++ "."%char :: t) ++ nl)
      with (l ++ "@"%char :: d ++ "."%char :: t ++ nl)
      by (rewrite <- app_assoc; simpl; now rewrite <- app_assoc).
    rewrite strip_accepted by assumption.
    unfold _is_valid_email_format. apply match_anchored_lang.
    exists (l ++ "@"%char :: d ++ "."%char :: t), [].
    rewrite chars_of_chars, app_nil_r.
    split; [reflexivity|]. split; [|now left].
    now apply pattern_shape_complete. }
  split; [exact Hs | exact Hs].
Qed.

Lemma verifier_check_implies_processor_check_witness :
  is_valid_email_format ("a@b.com" ++ String Re.newline "") = true
  /\ _is_valid_email_format
       (Str.strip ("a@b.com" ++ String Re.newline "")) = true.
Proof.
  apply (verifier_check_implies_processor_check
           ("a@b.com" ++ String Re.newline "")).
  reflexivity.
Defined.

(* ------------------------------------------------------------------ *)
(** ** More on [verify_email] *)

(** X3.  A string the format check rejects is answered [False],
    "Invalid email format", in the world as it was: no DNS query and no
    connection is made.  No other path gives that detail, so the detail
    tells a format failure from every other result. *)
Theorem format_failure_makes_no_call {W : Type} (net : Net W)
    (self : EmailVerifier) (email : string) (w : W) :
  (_is_valid_email_format email = false ->
   verify_email net self email w = (Ok (false, "Invalid email format"), w))
  /\ (forall b w',
        verify_email net self email w
        = (Ok (b, "Invalid email format"), w') ->
        _is_valid_email_format email = false /\ b = false /\ w' = w).
Proof.
  split; [apply verify_email_bad_format|].
  intros b w' H.
  destruct (_is_valid_email_format email) eqn:Hf.
  - exfalso.
    destruct (domain_of_valid (W := W) email Hf) as (l & rest & _ & Hd).
    rewrite (verify_email_eq net self email _ w Hf (Hd w)) in H.
    destruct (mx_lookup net (Str.lower (Str.of_chars rest)) w)
      as [[mx|e] w1].
    + destruct (rcpt_probe net self mx email w1) as [[code|e] w2].
      * unfold response_verdict in H.
        repeat match type of H with
               | context [if ?c then _ else _] => destruct c
               end; simpl in H; discriminate H.
      * unfold smtp_handler, except_Exception, is_Exception, ret, raise
          in H.
        destruct (exn_cls e); simpl in H; discriminate H.
    + destruct (is_Exception e); simpl in H; discriminate H.
  - rewrite verify_email_bad_format in H by exact Hf.
    injection H as <- <-. auto.
Qed.

Lemma format_failure_makes_no_call_witness :
  verify_email (net_replying 250) default_verifier "user@localhost" 5%nat
  = (Ok (false, "Invalid email format"), 5%nat).
Proof.
  apply (proj1 (format_failure_makes_no_call (net_replying 250)
                  default_verifier "user@localhost" 5%nat)).
  reflexivity.
Defined.

Section Conversation.

Context {W : Type} (net : Net W).
Variables (self : EmailVerifier) (mx_record email : string).

Let server : SMTP := {| smtp_timeout := timeout self; debuglevel := 0 |}.

(** The conversation, call by call, up to the reply to RCPT. *)
Lemma rcpt_probe_after_rcpt (w1 w2 w3 w4 w5 w6 : W)
    (r_connect r_helo r_mail : Z * string) (hostname message : string)
    (code : Z) :
  smtp_connect net server mx_record 25 w1 = (Ok r_connect, w2) ->
  gethostname net w2 = (Ok hostname, w3) ->
  smtp_helo net server hostname w3 = (Ok r_helo, w4) ->
  smtp_mail net server (sender_email self) w4 = (Ok r_mail, w5) ->
  smtp_rcpt net server email w5 = (Ok (code, message), w6) ->
  rcpt_probe net self mx_record email w1 =
    match smtp_quit net server w6 with
    | (Ok _, w7) => (Ok code, w7)
    | (Raise e, w7) => (Raise e, w7)
    end.
Proof.
  intros H1 H2 H3 H4 H5. unfold rcpt_probe, bind. fold server.
  rewrite H1, H2, H3, H4, H5.
  destruct (smtp_quit net server w6) as [[r|e] w7]; reflexivity.
Qed.

End Conversation.

(** X4.  The verdict is that of the reply to RCPT alone: when the six
    calls of the conversation return, [verify_email] returns the verdict
    of the RCPT code whatever codes CONNECT, HELO, MAIL and QUIT were
    answered with; a refused HELO or MAIL does not stop the probe. *)
Theorem only_rcpt_reply_is_read {W : Type} (net : Net W)
    (self : EmailVerifier) (email domain mx_record : string)
    (w w1 w2 w3 w4 w5 w6 w7 : W)
    (r_connect r_helo r_mail r_quit : Z * string)
    (hostname message : string) (code : Z) :
  let server := {| smtp_timeout := timeout self; debuglevel := 0 |} in
  _is_valid_email_format email = true ->
  domain_of email w = (Ok domain, w) ->
  mx_lookup net domain w = (Ok mx_record, w1) ->
  smtp_connect net server mx_record 25 w1 = (Ok r_connect, w2) ->
  gethostname net w2 = (Ok hostname, w3) ->
  smtp_helo net server hostname w3 = (Ok r_helo, w4) ->
  smtp_mail net server (sender_email self) w4 = (Ok r_mail, w5) ->
  smtp_rcpt net server email w5 = (Ok (code, message), w6) ->
  smtp_quit net server w6 = (Ok r_quit, w7) ->
  verify_email net self email w = (Ok (response_verdict code), w7).
Proof.
  intros server Hf Hd Hmx H1 H2 H3 H4 H5 H6.
  rewrite (verify_email_eq net self email domain w Hf Hd), Hmx.
  rewrite (rcpt_probe_after_rcpt net self mx_record email w1 w2 w3 w4 w5 w6
             r_connect r_helo r_mail hostname message code H1 H2 H3 H4 H5).
  fold server. now rewrite H6.
Qed.

Lemma only_rcpt_reply_is_read_witness :
  verify_email
    (scripted_session (Ok one_mx) (Ok (502, "no HELO")) (Ok (550, "denied"))
       (Ok (250, "OK")) (Ok (500, "what")))
    default_verifier "user@example.com" 0%nat
  = (Ok (true, "Email address exists"), 7%nat).
Proof.
  apply (only_rcpt_reply_is_read
           (scripted_session (Ok one_mx) (Ok (502, "no HELO"))
              (Ok (550, "denied")) (Ok (250, "OK")) (Ok (500, "what")))
           default_verifier "user@example.com" "example.com"
           "mx.example.com" 0%nat 1%nat 2%nat 3%nat 4%nat 5%nat 6%nat 7%nat
           (220, "ready") (502, "no HELO") (550, "denied") (500, "what")
           "localhost" "OK" 250); reflexivity.
Defined.

(** X5.  The verdict needs QUIT to return: when RCPT has been answered,
    with 250 or any other code, and QUIT then raises, the reply is
    dropped and [verify_email] returns [False] with the text of that
    failure. *)
Theorem quit_failure_drops_the_reply {W : Type} (net : Net W)
    (self : EmailVerifier) (email domain mx_record : string)
    (w w1 w2 w3 w4 w5 w6 w7 : W)
    (r_connect r_helo r_mail : Z * string)
    (hostname message : string) (code : Z) (e : exn) :
  let server := {| smtp_timeout := timeout self; debuglevel := 0 |} in
  _is_valid_email_format email = true ->
  domain_of email w = (Ok domain, w) ->
  mx_lookup net domain w = (Ok mx_record, w1) ->
  smtp_connect net server mx_record 25 w1 = (Ok r_connect, w2) ->
  gethostname net w2 = (Ok hostname, w3) ->
  smtp_helo net server hostname w3 = (Ok r_helo, w4) ->
  smtp_mail net server (sender_email self) w4 = (Ok r_mail, w5) ->
  smtp_rcpt net server email w5 = (Ok (code, message), w6) ->
  smtp_quit net server w6 = (Raise e, w7) ->
  is_Exception e = true ->
  verify_email net self email w =
    (Ok (false,
         match exn_cls e with
         | SMTPConnectError => "Cannot connect to SMTP server"
         | SMTPServerDisconnected => "SMTP server disconnected"
         | SMTPRecipientsRefused => "Recipient refused"
         | socket_timeout => "SMTP connection timeout"
         | _ => ("SMTP error: " ++ exn_str e)%string
         end), w7).
Proof.
  intros server Hf Hd Hmx H1 H2 H3 H4 H5 H6 He.
  apply (smtp_failure_texts net self email domain mx_record e w w1 w7
           Hf Hd Hmx); [|exact He].
  rewrite (rcpt_probe_after_rcpt net self mx_record email w1 w2 w3 w4 w5 w6
             r_connect r_helo r_mail hostname message code H1 H2 H3 H4 H5).
  fold server. now rewrite H6.
Qed.

Lemma quit_failure_drops_the_reply_witness :
  verify_email
    (scripted_session (Ok one_mx) (Ok (250, "Hello")) (Ok (250, "OK"))
       (Ok (250, "OK"))
       (Raise (Exn SMTPServerDisconnected "Connection unexpectedly closed")))
    default_verifier "user@example.com" 0%nat
  = (Ok (false, "SMTP server disconnected"), 7%nat).
Proof.
  apply (quit_failure_drops_the_reply
           (scripted_session (Ok one_mx) (Ok (250, "Hello")) (Ok (250, "OK"))
              (Ok (250, "OK"))
              (Raise (Exn SMTPServerDisconnected
                        "Connection unexpectedly closed")))
           default_verifier "user@example.com" "example.com"
           "mx.example.com" 0%nat 1%nat 2%nat 3%nat 4%nat 5%nat 6%nat 7%nat
           (220, "ready") (250, "Hello") (250, "OK")
           "localhost" "OK" 250
           (Exn SMTPServerDisconnected "Connection unexpectedly closed"));
    reflexivity.
Defined.

(** X6.  [verify_email] catches instances of [Exception] only: a signal
    that is not one ([KeyboardInterrupt], [SystemExit]), raised during
    the MX query or during the conversation, leaves [verify_email] as it
    came. *)
Theorem interrupt_leaves_verify_email {W : Type} (net : Net W)
    (self : EmailVerifier) (email domain : string) (e : exn) (w w' : W) :
  _is_valid_email_format email = true ->
  domain_of email w = (Ok domain, w) ->
  is_Exception e = false ->
  (mx_lookup net domain w = (Raise e, w')
   \/ exists mx_record w1,
        mx_lookup net domain w = (Ok mx_record, w1)
        /\ rcpt_probe net self mx_record email w1 = (Raise e, w')) ->
  verify_email net self email w = (Raise e, w').
Proof.
  intros Hf Hd He H.
  rewrite (verify_email_eq net self email domain w Hf Hd).
  destruct H as [-> | (mx & w1 & -> & ->)].
  - now rewrite He.
  - unfold smtp_handler, except_Exception. unfold is_Exception in *.
    destruct (exn_cls e); try discriminate He. reflexivity.
Qed.

Lemma interrupt_leaves_verify_email_witness :
  verify_email
    (scripted (Ok one_mx) (Ok one_a)
       (Raise (Exn BaseExceptionOnly "KeyboardInterrupt")) (Ok (250, "OK")))
    default_verifier "user@example.com" 0%nat
  = (Raise (Exn BaseExceptionOnly "KeyboardInterrupt"), 2%nat).
Proof.
  apply (interrupt_leaves_verify_email
           (scripted (Ok one_mx) (Ok one_a)
              (Raise (Exn BaseExceptionOnly "KeyboardInterrupt"))
              (Ok (250, "OK")))
           default_verifier "user@example.com" "example.com"
           (Exn BaseExceptionOnly "KeyboardInterrupt") 0%nat 2%nat);
    try reflexivity.
  right. exists "mx.example.com", 1%nat. split; reflexivity.
Defined.

(* ------------------------------------------------------------------ *)
(** ** More on [get_domain_info] *)

Lemma first_occurrence (x : ascii) (l : list ascii) :
  In x l -> exists a b, l = a ++ x :: b /\ ~ In x a.
Proof.
  induction l as [|c l IH]; [intros []|].
  destruct (ascii_dec c x) as [->|Hne].
  - intros _. exists [], l. auto.
  - intros [E|Hin]; [contradiction|].
    destruct (IH Hin) as (a & b & -> & Ha).
    exists (c :: a), b. split; [reflexivity|].
    intros [E|H]; auto.
Qed.

Lemma split_chars_nonempty (sep : ascii) (l : list ascii) :
  exists piece pieces, Str.split_chars sep l = piece :: pieces.
Proof.
  induction l as [|c l (p & ps & E)]; simpl; [eauto|].
  destruct (Ascii.eqb c sep); [eauto|]. rewrite E. eauto.
Qed.

(** Indexing the split address succeeds exactly when there is an [@]. *)
Lemma domain_of_has_at {W : Type} (email : string) (w : W) :
  (exists d, domain_of email w = (Ok d, w)) <-> Str.has_char "@" email.
Proof.
  unfold domain_of, bind, lift, ret, getitem, Str.split, Str.has_char.
  split.
  - intros (d & H).
    destruct (in_dec ascii_dec "@"%char (Str.chars email)) as [Hin|Hnin];
      [exact Hin|].
    rewrite split_chars_none in H by exact Hnin. discriminate H.
  - intros Hin.
    destruct (first_occurrence _ _ Hin) as (a & b & E & Ha).
    rewrite E, split_chars_first by exact Ha.
    destruct (split_chars_nonempty "@" b) as (p & ps & ->).
    simpl. eauto.
Qed.

(** The domain is the lower-cased text between the first [@] and the
    next one, or the end. *)
Lemma domain_of_between {W : Type} (email : string) (a b rest : list ascii)
    (w : W) :
  Str.chars email = a ++ "@"%char :: b ++ rest ->
  ~ In "@"%char a -> ~ In "@"%char b ->
  (rest = [] \/ exists r, rest = "@"%char :: r) ->
  domain_of email w = (Ok (Str.lower (Str.of_chars b)), w).
Proof.
  intros E Ha Hb Hrest.
  unfold domain_of, bind, lift, ret, getitem, Str.split.
  rewrite E, split_chars_first by exact Ha.
  destruct Hrest as [-> | (r & ->)].
  - rewrite app_nil_r, split_chars_none by exact Hb. reflexivity.
  - rewrite split_chars_first by exact Hb. reflexivity.
Qed.

(** X7.  Every record [get_domain_info] returns is coherent: [has_mx]
    tells that [mx_records] is not empty and [resolvable] that
    [a_records] is not empty; the key [error] is absent exactly when the
    string has an [@].  For a string without [@] no query is made and
    the record is the fixed one of domain "unknown" with the text of the
    [IndexError]; otherwise the domain is the lower-cased text between
    the first [@] and the next [@] or the end, whatever the format. *)
Theorem get_domain_info_record {W : Type} (net : Net W) (email : string)
    (info : domain_info) (w w' : W) :
  get_domain_info net email w = (Ok info, w') ->
  (has_mx info = true <-> mx_records info <> [])
  /\ (resolvable info = true <-> a_records info <> [])
  /\ (error info = None <-> Str.has_char "@" email)
  /\ (~ Str.has_char "@" email ->
      w' = w
      /\ info = {| domain := "unknown"; mx_records := []; a_records := [];
                   has_mx := false; resolvable := false;
                   error := Some "list index out of range" |})
  /\ (forall a b rest,
        Str.chars email = a ++ "@"%char :: b ++ rest ->
        ~ In "@"%char a -> ~ In "@"%char b ->
        (rest = [] \/ exists r, rest = "@"%char :: r) ->
        domain info = Str.lower (Str.of_chars b)).
Proof.
  intros H.
  assert (Hlen : forall A (l : list A),
             Nat.ltb 0 (List.length l) = true <-> l <> []).
  { intros A [|x l]; simpl; split; try congruence; try discriminate.
    reflexivity. }
  destruct (domain_of_outcome email w) as [(d & Ed)|(e & Ee & He)].
  - assert (Hat : Str.has_char "@" email)
      by (apply (domain_of_has_at email w); eauto).
    rewrite (get_domain_info_eq net email d w Ed) in H.
    destruct (resolve_MX net d w) as [r1 w1].
    destruct (resolve_A net d w1) as [r2 w2].
    injection H as <- <-. simpl.
    split; [apply Hlen|]. split; [apply Hlen|].
    split; [tauto|]. split; [tauto|].
    intros a b rest E Ha Hb Hrest.
    pose proof (domain_of_between email a b rest w E Ha Hb Hrest) as Eb.
    congruence.
  - assert (Hat : ~ Str.has_char "@" email).
    { intros Hin. apply (domain_of_has_at email w) in Hin as (d & Ed).
      congruence. }
    rewrite (get_domain_info_no_domain net email e w w Ee) in H.
    injection H as <- <-. simpl.
    split; [split; [discriminate | congruence]|].
    split; [split; [discriminate | congruence]|].
    split; [split; [discriminate | contradiction]|].
    split.
    + intros _. split; [reflexivity|].
      unfold domain_of, bind, lift, getitem in Ee.
      destruct (nth_error (Str.split "@" email) 1); [discriminate Ee|].
      injection Ee as <-. reflexivity.
    + intros a b rest E. exfalso. apply Hat.
      unfold Str.has_char. rewrite E. apply in_or_app. right. now left.
Qed.

Lemma get_domain_info_record_witness :
  domain
    {| domain := "example.com"; mx_records := []; a_records := one_a;
       has_mx := false; resolvable := true; error := None |}
  = Str.lower (Str.of_chars (Str.chars "Example.COM")).
Proof.
  destruct (get_domain_info_record net_without_mx "x@Example.COM@y"
              {| domain := "example.com"; mx_records := [];
                 a_records := one_a; has_mx := false; resolvable := true;
                 error := None |} 0%nat 2%nat eq_refl)
    as (_ & _ & _ & _ & H).
  apply (H (Str.chars "x") (Str.chars "Example.COM") (Str.chars "@y")).
  - reflexivity.
  - simpl. intros [H1|[]]. discriminate H1.
  - simpl. intros H1.
    repeat (destruct H1 as [H1|H1]; [discriminate H1|]). exact H1.
  - right. exists (Str.chars "y"). reflexivity.
Defined.

(** X8.  When the MX query answers, [mx_records] has one host per record
    of the answer, in the order of the answer: host [i] is the exchange
    of record [i] without its trailing dots, and no host ends with a dot.
    The preference values are not read. *)
Theorem get_domain_info_lists_answer_order {W : Type} (net : Net W)
    (email domain : string) (answer : list MX) (info : domain_info)
    (w w1 w' : W) :
  domain_of email w = (Ok domain, w) ->
  resolve_MX net domain w = (Ok answer, w1) ->
  get_domain_info net email w = (Ok info, w') ->
  List.length (mx_records info) = List.length answer
  /\ forall i record,
       nth_error answer i = Some record ->
       exists host dots,
         nth_error (mx_records info) i = Some host
         /\ Str.chars (exchange record) = Str.chars host ++ dots
         /\ Forall (fun c => c = "."%char) dots
         /\ forall pre c, Str.chars host = pre ++ [c] -> c <> "."%char.
Proof.
  intros Hd Hmx H.
  rewrite (get_domain_info_eq net email domain w Hd), Hmx in H.
  destruct (resolve_A net domain w1) as [r2 w2].
  injection H as <- _. simpl. split; [apply length_map|].
  intros i record Hi.
  destruct (rstrip_chars_split (Str.is_char ".") (Str.chars (exchange record)))
    as (dots & E & Hdots).
  exists (Str.rstrip (Str.is_char ".") (exchange record)), dots.
  split; [|split; [|split]].
  - now rewrite nth_error_map, Hi.
  - unfold Str.rstrip. rewrite chars_of_chars. exact E.
  - eapply Forall_impl; [|exact Hdots].
    intros c Hc. unfold Str.is_char in Hc. now apply Ascii.eqb_eq.
  - unfold Str.rstrip. rewrite chars_of_chars. intros pre c Ec ->.
    apply rstrip_chars_last in Ec. discriminate.
Qed.

Lemma get_domain_info_lists_answer_order_witness :
  exists host dots,
    nth_error ["mx2.example.com"; "mx1.example.com"] 1 = Some host
    /\ Str.chars "mx1.example.com." = Str.chars host ++ dots
    /\ Forall (fun c => c = "."%char) dots
    /\ forall pre c, Str.chars host = pre ++ [c] -> c <> "."%char.
Proof.
  destruct (get_domain_info_lists_answer_order net_two_mx
              "user@example.com" "example.com" two_mx
              {| domain := "example.com";
                 mx_records := ["mx2.example.com"; "mx1.example.com"];
                 a_records := one_a; has_mx := true; resolvable := true;
                 error := None |}
              0%nat 1%nat 2%nat eq_refl eq_refl eq_refl) as [_ H].
  exact (H 1%nat {| preference := 10; exchange := "mx1.example.com." |}
           eq_refl).
Defined.

(* ------------------------------------------------------------------ *)
(** ** More on [verify_email_batch] *)

Lemma dict_set_In (k : string) (v : entry) (d : dict) :
  In (k, v) (dict_set k v d).
Proof.
  induction d as [|[k' v'] d IH]; simpl; [now left|].
  destruct (String.eqb_spec k' k) as [->|Hne]; [now left | now right].
Qed.

Lemma dict_set_other (k k' : string) (v v' : entry) (d : dict) :
  k' <> k -> In (k', v') d -> In (k', v') (dict_set k v d).
Proof.
  intros Hne. induction d as [|[k0 v0] d IH]; simpl; [intros []|].
  intros [E|Hin].
  - injection E as -> ->.
    destruct (String.eqb_spec k' k) as [->|_]; [contradiction | now left].
  - destruct (String.eqb_spec k0 k); right; auto.
Qed.

Lemma keys_unique (d : dict) (k : string) (v1 v2 : entry) :
  NoDup (map fst d) -> In (k, v1) d -> In (k, v2) d -> v1 = v2.
Proof.
  induction d as [|[k0 v0] d IH]; simpl; [intros _ []|].
  intros Hnd H1 H2. inversion Hnd as [|? ? Hnin Hnd']; subst.
  destruct H1 as [E1|H1], H2 as [E2|H2].
  - congruence.
  - injection E1 as -> ->. exfalso. apply Hnin.
    change k with (fst (k, v2)). now apply in_map.
  - injection E2 as -> ->. exfalso. apply Hnin.
    change k with (fst (k, v1)). now apply in_map.
  - now apply IH.
Qed.

Section BatchMore.

Context {W : Type} (net : Net W).
Variables (self : EmailVerifier) (delay : Q) (last_email : string).

(** The loop over a list in two parts. *)
Lemma batch_loop_app (xs ys : list string) :
  forall (acc : dict) (w : W),
    batch_loop net self delay last_email (xs ++ ys) acc w =
      match batch_loop net self delay last_email xs acc w with
      | (Ok acc', w') => batch_loop net self delay last_email ys acc' w'
      | (Raise e, w') => (Raise e, w')
      end.
Proof.
  induction xs as [|x xs IH]; intros acc w; [reflexivity|].
  cbn [app batch_loop]. unfold bind at 1 3.
  destruct (verify_email net self x w) as [[[b d]|e] w1]; [|reflexivity].
  unfold bind at 1 2.
  destruct ((if negb (String.eqb x last_email)
             then time_sleep net delay else ret tt) w1) as [[[]|e] w2];
    [|reflexivity].
  apply IH.
Qed.

(** What the loop returns has distinct keys, keeps the records of the
    addresses it does not meet, and lists the new keys at their first
    occurrence. *)
Lemma batch_loop_result (emails : list string) :
  forall (acc results : dict) (w w' : W),
    batch_loop net self delay last_email emails acc w = (Ok results, w') ->
    (NoDup (map fst acc) -> NoDup (map fst results))
    /\ (forall k v, ~ In k emails -> In (k, v) acc -> In (k, v) results)
    /\ map fst results
       = map fst acc ++ first_occurrences (map fst acc) emails.
Proof.
  induction emails as [|email rest IH]; intros acc results w w'.
  - simpl. unfold ret. intros H. injection H as <- _.
    rewrite app_nil_r. auto.
  - cbn [batch_loop]. unfold bind at 1.
    destruct (verify_email net self email w) as [[[b d]|e] w1];
      [|discriminate].
    unfold bind at 1.
    destruct ((if negb (String.eqb email last_email)
               then time_sleep net delay else ret tt) w1) as [[[]|e] w2];
      [|discriminate].
    intros H. apply IH in H as (Hnd & Hkeep & Hkeys).
    split; [|split].
    + intros Hacc. apply Hnd. now apply dict_set_NoDup.
    + intros k v Hk Hin. apply Hkeep.
      * intros Hr. apply Hk. now right.
      * apply dict_set_other; [|exact Hin].
        intros ->. apply Hk. now left.
    + rewrite Hkeys. cbn [first_occurrences].
      destruct (existsb (String.eqb email) (map fst acc)) eqn:Ex.
      * apply existsb_exists in Ex as (k & Hk & Ek).
        apply String.eqb_eq in Ek. subst k.
        now rewrite dict_set_present.
      * assert (Hnin : ~ In email (map fst acc)).
        { intros Hin.
          assert (existsb (String.eqb email) (map fst acc) = true).
          { apply existsb_exists. exists email.
            split; [exact Hin | apply String.eqb_refl]. }
          congruence. }
        rewrite dict_set_new, map_app by exact Hnin. simpl.
        rewrite <- app_assoc. simpl. f_equal. f_equal.
        clear - Hnin. revert acc Hnin.
        assert (Hext : forall l s1 s2,
                   (forall x, In x s1 <-> In x s2) ->
                   first_occurrences s1 l = first_occurrences s2 l).
        { induction l as [|x l IHl]; intros s1 s2 Hs; [reflexivity|].
          simpl.
          assert (E : existsb (String.eqb x) s1 = existsb (String.eqb x) s2).
          { apply eq_true_iff_eq. rewrite !existsb_exists.
            split; intros (y & Hy & Ey); exists y; split; auto;
              now apply Hs. }
          rewrite E. destruct (existsb (String.eqb x) s2).
          - now apply IHl.
          - f_equal. apply IHl. intros y. simpl. now rewrite Hs. }
        intros acc _. apply Hext. intros x.
        rewrite in_app_iff. simpl. tauto.
Qed.

End BatchMore.

(** X9.  The record of an address holds the outcome of its last probe:
    when an address does not occur again later in the input, the
    dictionary returned has exactly one record for it, and that record
    is what [verify_email] returned for it at that position, whatever
    earlier probes of the same address gave. *)
Theorem batch_keeps_last_probe {W : Type} (net : Net W)
    (self : EmailVerifier) (delay : Q) (before after : list string)
    (email : string) (is_valid : bool) (details : string)
    (seen results : dict) (w w1 w2 w' : W) :
  batch_loop net self delay (last (before ++ email :: after) "")
    before [] w = (Ok seen, w1) ->
  verify_email net self email w1 = (Ok (is_valid, details), w2) ->
  ~ In email after ->
  verify_email_batch net self (before ++ email :: after) delay w
  = (Ok results, w') ->
  forall v, In (email, v) results <->
            v = {| is_valid := is_valid; details := details |}.
Proof.
  intros Hbefore Hprobe Hafter H.
  unfold verify_email_batch in H.
  pose proof (batch_loop_result net self delay _ _ _ _ _ _ H) as (Hnd & _ & _).
  specialize (Hnd (NoDup_nil _)).
  rewrite batch_loop_app, Hbefore in H.
  cbn [batch_loop] in H. unfold bind at 1 in H. rewrite Hprobe in H.
  unfold bind at 1 in H.
  destruct ((if negb (String.eqb email (last (before ++ email :: after) ""))
             then time_sleep net delay else ret tt) w2) as [[[]|e] w3];
    [|discriminate].
  apply batch_loop_result in H as (_ & Hkeep & _).
  assert (Hin : In (email, {| is_valid := is_valid; details := details |})
                  results).
  { apply Hkeep; [exact Hafter | apply dict_set_In]. }
  intros v. split.
  - intros Hv. exact (keys_unique results email _ _ Hnd Hv Hin).
  - intros ->. exact Hin.
Qed.

Lemma batch_keeps_last_probe_witness :
  In ("a@b.com", {| is_valid := true; details := "Email address exists" |})
    [("a@b.com",
      {| is_valid := true; details := "Email address exists" |});
     ("c@d.org",
      {| is_valid := true; details := "Email address exists" |})].
Proof.
  apply (proj2
           (batch_keeps_last_probe (net_replying 250) default_verifier 0%Q
              ["a@b.com"; "c@d.org"] [] "a@b.com" true
              "Email address exists"
              [("a@b.com",
                {| is_valid := true; details := "Email address exists" |});
               ("c@d.org",
                {| is_valid := true; details := "Email address exists" |})]
              [("a@b.com",
                {| is_valid := true; details := "Email address exists" |});
               ("c@d.org",
                {| is_valid := true; details := "Email address exists" |})]
              0%nat 15%nat 22%nat 22%nat eq_refl eq_refl (fun H => H)
              eq_refl
              {| is_valid := true; details := "Email address exists" |})).
  reflexivity.
Defined.

(** X10.  The keys of the dictionary are the addresses of the input in
    the order of their first occurrence. *)
Theorem batch_keys_in_first_occurrence_order {W : Type} (net : Net W)
    (self : EmailVerifier) (delay : Q) (emails : list string) (w : W) :
  net_only_Exception net ->
  sleep_returns net delay ->
  exists results w',
    verify_email_batch net self emails delay w = (Ok results, w')
    /\ map fst results = first_occurrences [] emails.
Proof.
  intros Hnet Hsleep. unfold verify_email_batch.
  destruct (batch_loop_returns net self delay Hnet Hsleep
              (last emails "") emails [] w (NoDup_nil _))
    as (results & w' & E & _ & _).
  exists results, w'. split; [exact E|].
  apply batch_loop_result in E as (_ & _ & Hkeys). exact Hkeys.
Qed.

Lemma batch_keys_in_first_occurrence_order_witness :
  exists results w',
    verify_email_batch (net_replying 550) default_verifier
      ["b@c.de"; "a@b.com"; "b@c.de"; "x"; "a@b.com"] 0%Q 0%nat
    = (Ok results, w')
    /\ map fst results = ["b@c.de"; "a@b.com"; "x"].
Proof.
  apply (batch_keys_in_first_occurrence_order (net_replying 550)
           default_verifier 0%Q
           ["b@c.de"; "a@b.com"; "b@c.de"; "x"; "a@b.com"] 0%nat).
  - apply scripted_only_Exception; reflexivity.
  - apply scripted_sleep_returns.
Defined.

(** X11.  An exception that leaves [verify_email] leaves
    [verify_email_batch] too: the batch returns no dictionary, and the
    records of the addresses probed before are lost with it. *)
Theorem batch_raises_as_verify_email {W : Type} (net : Net W)
    (self : EmailVerifier) (delay : Q) (before after : list string)
    (email : string) (e : exn) (seen : dict) (w w1 w2 : W) :
  batch_loop net self delay (last (before ++ email :: after) "")
    before [] w = (Ok seen, w1) ->
  verify_email net self email w1 = (Raise e, w2) ->
  verify_email_batch net self (before ++ email :: after) delay w
  = (Raise e, w2).
Proof.
  intros Hbefore Hprobe. unfold verify_email_batch.
  rewrite batch_loop_app, Hbefore.
  cbn [batch_loop]. unfold bind at 1. now rewrite Hprobe.
Qed.

Lemma batch_raises_as_verify_email_witness :
  verify_email_batch
    (scripted (Ok one_mx) (Ok one_a)
       (Raise (Exn BaseExceptionOnly "KeyboardInterrupt")) (Ok (250, "OK")))
    default_verifier (["not-an-email"] ++ "a@b.com" :: ["c@d.org"]) 0%Q 0%nat
  = (Raise (Exn BaseExceptionOnly "KeyboardInterrupt"), 3%nat).
Proof.
  apply (batch_raises_as_verify_email
           (scripted (Ok one_mx) (Ok one_a)
              (Raise (Exn BaseExceptionOnly "KeyboardInterrupt"))
              (Ok (250, "OK")))
           default_verifier 0%Q ["not-an-email"] ["c@d.org"] "a@b.com"
           (Exn BaseExceptionOnly "KeyboardInterrupt")
           [("not-an-email",
             {| is_valid := false; details := "Invalid email format" |})]
           0%nat 1%nat 3%nat); reflexivity.
Defined.

(** ** The pauses of the batch *)
















(* ------------------------------------------------------------------ *)
(** ** [ExcelProcessor]: extracting, counting and cleaning *)

Lemma filter_split_length {A : Type} (f : A -> bool) (l : list A) :
  (List.length (filter f l)
   + List.length (filter (fun x => negb (f x)) l) = List.length l)%nat.
Proof.
  induction l as [|x l IH]; simpl; [reflexivity|].
  destruct (f x); simpl; lia.
Qed.

Lemma column_length (df : DataFrame) (name : string) :
  has_column df name = true ->
  List.length (column df name) = List.length (rows df).
Proof.
  unfold has_column, column.
  destruct (index_of name (columns df)); [|discriminate].
  intros _. apply length_map.
Qed.

Lemma valid_emails_of_spec (cells : list cell) (e : string) :
  In e (valid_emails_of cells) ->
  exists x, In (Some x) cells /\ e = Str.strip x
            /\ is_valid_email_format x = true.
Proof.
  induction cells as [|[x|] cells IH]; simpl; [intros []| |].
  - destruct (is_valid_email_format (Str.strip x)) eqn:Hv.
    + intros [<-|Hin].
      * exists x. rewrite is_valid_email_format_strip in Hv. auto.
      * destruct (IH Hin) as (y & Hy & H). exists y. auto.
    + intros Hin. destruct (IH Hin) as (y & Hy & H). exists y. auto.
  - intros Hin. destruct (IH Hin) as (y & Hy & H). exists y. auto.
Qed.

Lemma valid_emails_of_length (cells : list cell) :
  List.length (valid_emails_of cells)
  = List.length
      (filter (fun email => is_valid_email_format (str email))
         (filter (fun x => negb (isna x)) cells)).
Proof.
  induction cells as [|[x|] cells IH]; simpl; [reflexivity| |exact IH].
  rewrite is_valid_email_format_strip.
  destruct (is_valid_email_format x); simpl; now rewrite IH.
Qed.

(** X13.  Every address [extract_valid_emails] returns is the stripped
    text of a cell of the column that has a value; it is unchanged by
    [strip], and both format checks accept it, the verifier's included.
    There are no more addresses than rows, and none when the column
    does not exist. *)
Theorem extract_valid_emails_sound (df : DataFrame) (email_column : string) :
  (forall e,
     In e (extract_valid_emails df email_column) ->
     (exists x, In (Some x) (column df email_column) /\ e = Str.strip x)
     /\ Str.strip e = e
     /\ is_valid_email_format e = true
     /\ _is_valid_email_format e = true)
  /\ (List.length (extract_valid_emails df email_column)
      <= List.length (rows df))%nat
  /\ (has_column df email_column = false ->
      extract_valid_emails df email_column = []).
Proof.
  unfold extract_valid_emails. split; [|split].
  - intros e.
    destruct (has_column df email_column); simpl; [|intros []].
    intros Hin. apply valid_emails_of_spec in Hin as (x & Hx & -> & Hv).
    split; [eauto|]. split; [apply strip_idem|].
    split; [now rewrite is_valid_email_format_strip|].
    exact Hv.
  - destruct (has_column df email_column) eqn:Hc; simpl; [|lia].
    rewrite valid_emails_of_length, <- (column_length df email_column Hc).
    etransitivity; [apply filter_length_le | apply filter_length_le].
  - intros ->. reflexivity.
Qed.

(** X14.  The counts of [get_file_stats] add up: for a column that
    exists and a name that is not empty, the valid and the invalid
    addresses make the total, the total and the empty cells make the
    number of rows, and the valid count is the number of addresses
    [extract_valid_emails] returns.  For no name, an empty name or a
    missing column the four keys are absent. *)
Theorem get_file_stats_counts (df : DataFrame) (email_column : option string) :
  let stats := get_file_stats df email_column in
  total_rows stats = len (rows df)
  /\ 0 <= empty_rows stats <= total_rows stats
  /\ match email_column with
     | Some name =>
         if (negb (String.eqb name "") && has_column df name)%bool
         then exists es,
                email_keys stats = Some es
                /\ valid_emails es + invalid_emails es = total_emails es
                /\ total_emails es + empty_emails es = total_rows stats
                /\ 0 <= invalid_emails es
                /\ valid_emails es = len (extract_valid_emails df name)
         else email_keys stats = None
     | None => email_keys stats = None
     end.
Proof.
  assert (Hrows : total_rows (get_file_stats df email_column) = len (rows df)).
  { unfold get_file_stats. destruct email_column as [name|]; [|reflexivity].
    destruct (negb (String.eqb name "") && has_column df name)%bool;
      reflexivity. }
  assert (Hempty : empty_rows (get_file_stats df email_column)
                   = len (filter (forallb isna) (rows df))).
  { unfold get_file_stats. destruct email_column as [name|]; [|reflexivity].
    destruct (negb (String.eqb name "") && has_column df name)%bool;
      reflexivity. }
  cbv zeta. split; [exact Hrows|]. split.
  - rewrite Hrows, Hempty. unfold len.
    pose proof (filter_length_le (forallb isna) (rows df)). lia.
  - destruct email_column as [name|]; [|reflexivity].
    destruct (negb (String.eqb name "") && has_column df name)%bool eqn:Hc;
      [|unfold get_file_stats; now rewrite Hc].
    rewrite Hrows. unfold get_file_stats. rewrite Hc.
    eexists. split; [reflexivity|]. cbn [total_emails valid_emails
      invalid_emails empty_emails].
    apply andb_true_iff in Hc as [_ Hc].
    pose proof (filter_split_length isna (column df name)) as Hsplit.
    pose proof (filter_length_le
                  (fun email => is_valid_email_format (str email))
                  (filter (fun x => negb (isna x)) (column df name))) as Hle.
    rewrite (column_length df name Hc) in Hsplit.
    unfold len, extract_valid_emails. rewrite Hc. simpl negb. cbv iota.
    rewrite valid_emails_of_length.
    repeat split; lia.
Qed.

Lemma get_file_stats_counts_witness :
  exists es,
    email_keys (get_file_stats sample_df (Some "email")) = Some es
    /\ valid_emails es = 2 /\ invalid_emails es = 1
    /\ total_emails es = 3 /\ empty_emails es = 2.
Proof.
  destruct (get_file_stats_counts sample_df (Some "email"))
    as (_ & _ & es & E & _).
  exists es. split; [exact E|].
  injection E as <-. repeat split.
Defined.

Lemma extract_valid_emails_sound_witness :
  Str.strip "Cy@Example.org" = "Cy@Example.org"
  /\ _is_valid_email_format "Cy@Example.org" = true.
Proof.
  destruct (extract_valid_emails_sound sample_df "email") as (H & _ & _).
  destruct (H "Cy@Example.org") as (_ & Hs & _ & Hv).
  - simpl. right. now left.
  - split; [exact Hs | exact Hv].
Defined.

(** ** Lower case *)

Lemma lower_char_space (c : ascii) :
  Str.isspace (Str.lower_char c) = Str.isspace c.
Proof. each_ascii c. Qed.

Lemma lower_char_idem (c : ascii) :
  Str.lower_char (Str.lower_char c) = Str.lower_char c.
Proof. each_ascii c. Qed.

Lemma lower_char_at (c : ascii) :
  Ascii.eqb "@" (Str.lower_char c) = Ascii.eqb "@" c.
Proof. each_ascii c. Qed.

Lemma lower_char_dot (c : ascii) :
  Ascii.eqb "." (Str.lower_char c) = Ascii.eqb "." c.
Proof. each_ascii c. Qed.

Lemma chars_lower (s : string) :
  Str.chars (Str.lower s) = map Str.lower_char (Str.chars s).
Proof. unfold Str.lower. apply chars_of_chars. Qed.

Lemma lower_idem (s : string) : Str.lower (Str.lower s) = Str.lower s.
Proof.
  apply chars_inj. rewrite !chars_lower, map_map.
  apply map_ext. apply lower_char_idem.
Qed.

Lemma lstrip_chars_lower (l : list ascii) :
  Str.lstrip_chars Str.isspace (map Str.lower_char l)
  = map Str.lower_char (Str.lstrip_chars Str.isspace l).
Proof.
  induction l as [|c l IH]; simpl; [reflexivity|].
  rewrite lower_char_space. destruct (Str.isspace c); [exact IH|reflexivity].
Qed.

Lemma strip_lower (s : string) :
  Str.strip (Str.lower s) = Str.lower (Str.strip s).
Proof.
  apply chars_inj. rewrite chars_lower. unfold Str.strip.
  rewrite !chars_of_chars, chars_lower. unfold Str.rstrip_chars.
  now rewrite lstrip_chars_lower, <- map_rev, lstrip_chars_lower, map_rev.
Qed.

Lemma char_in_lower_at (s : string) :
  char_in "@" (Str.lower s) = char_in "@" s.
Proof.
  unfold char_in. rewrite chars_lower.
  induction (Str.chars s) as [|c l IH]; cbn [map existsb]; [reflexivity|].
  now rewrite lower_char_at, IH.
Qed.

Lemma char_in_lower_dot (s : string) :
  char_in "." (Str.lower s) = char_in "." s.
Proof.
  unfold char_in. rewrite chars_lower.
  induction (Str.chars s) as [|c l IH]; cbn [map existsb]; [reflexivity|].
  now rewrite lower_char_dot, IH.
Qed.

Lemma local_char_lower (c : ascii) :
  local_char c = true -> local_char (Str.lower_char c) = true.
Proof. each_ascii c. Qed.

Lemma domain_char_lower (c : ascii) :
  domain_char c = true -> domain_char (Str.lower_char c) = true.
Proof. each_ascii c. Qed.

Lemma is_alpha_lower (c : ascii) :
  Str.is_alpha c = true -> Str.is_alpha (Str.lower_char c) = true.
Proof. each_ascii c. Qed.

(** The lower-case form of a string the pattern accepts is accepted:
    the classes of the pattern hold the lower-case form of each of
    their letters. *)
Lemma format_lower_accepted (s : string) :
  _is_valid_email_format s = true ->
  _is_valid_email_format (Str.lower s) = true.
Proof.
  unfold _is_valid_email_format. rewrite !match_anchored_lang.
  intros (core & nl & E & Hcore & Hnl).
  apply pattern_shape in Hcore
    as (l & d & t & -> & Hl1 & Hl & Hd1 & Hd & Ht2 & Ht).
  exists (map Str.lower_char l
            ++ "@"%char :: map Str.lower_char d
            ++ "."%char :: map Str.lower_char t), nl.
  split; [|split].
  - rewrite chars_lower, E, !map_app. cbn [map]. rewrite !map_app.
    cbn [map]. f_equal. destruct Hnl as [-> | ->]; reflexivity.
  - apply pattern_shape_complete.
    + destruct l; [congruence | discriminate].
    + apply Forall_map. eapply Forall_impl; [|exact Hl].
      apply local_char_lower.
    + destruct d; [congruence | discriminate].
    + apply Forall_map. eapply Forall_impl; [|exact Hd].
      apply domain_char_lower.
    + now rewrite length_map.
    + apply Forall_map. eapply Forall_impl; [|exact Ht].
      apply is_alpha_lower.
  - exact Hnl.
Qed.

Lemma valid_has_at_and_dot (s : string) :
  _is_valid_email_format s = true ->
  char_in "@" s = true /\ char_in "." s = true.
Proof.
  intros H. apply match_one_at in H as (l & rest & E & _ & _ & _ & Hdot).
  unfold char_in. rewrite E. split; apply existsb_exists.
  - exists "@"%char. split; [|reflexivity].
    apply in_or_app. right. now left.
  - exists "."%char. split; [|reflexivity].
    apply in_or_app. right. now right.
Qed.

(** ** [clean_email_data] *)

Lemma nth_update_nth {A : Type} (f : A -> A) (d : A) (l : list A) :
  forall j, f d = d -> nth j (update_nth j f l) d = f (nth j l d).
Proof.
  induction l as [|x l IH]; intros [|j] Hd; simpl; auto.
Qed.

Lemma nth_update_nth_other {A : Type} (f : A -> A) (d : A) (l : list A) :
  forall j j', j <> j' -> nth j' (update_nth j f l) d = nth j' l d.
Proof.
  induction l as [|x l IH]; intros [|j] [|j'] Hne; simpl; auto.
  congruence.
Qed.

Lemma update_nth_twice {A : Type} (f g : A -> A) (l : list A) :
  forall j, update_nth j f (update_nth j g l)
            = update_nth j (fun x => f (g x)) l.
Proof.
  induction l as [|x l IH]; intros [|j]; simpl; auto.
  now rewrite IH.
Qed.

Lemma update_nth_ext {A : Type} (f g : A -> A) (l : list A) :
  (forall x, f x = g x) -> forall j, update_nth j f l = update_nth j g l.
Proof.
  intros H. induction l as [|x l IH]; intros [|j]; simpl; auto.
  - now rewrite H.
  - now rewrite IH.
Qed.

Lemma index_of_same (a b : string) (names : list string) :
  forall j, index_of a names = Some j -> index_of b names = Some j -> a = b.
Proof.
  induction names as [|n names IH]; simpl; [discriminate|].
  intros j.
  destruct (String.eqb n a) eqn:Ea, (String.eqb n b) eqn:Eb.
  - intros _ _. apply String.eqb_eq in Ea, Eb. congruence.
  - intros H1 H2. injection H1 as <-.
    destruct (index_of b names); discriminate.
  - intros H1 H2. injection H2 as <-.
    destruct (index_of a names); discriminate.
  - destruct (index_of a names) as [ja|]; [|discriminate].
    destruct (index_of b names) as [jb|]; [|discriminate].
    simpl. intros H1 H2. apply (IH ja); [reflexivity|].
    congruence.
Qed.

(** The cleaning of one cell. *)
Lemma clean_cell_some (s : string) :
  clean_keep (clean_text (Some s))
  = if (char_in "@" (Str.lower (Str.strip s))
        && char_in "." (Str.lower (Str.strip s)))%bool
    then Some (Str.lower (Str.strip s)) else None.
Proof. reflexivity. Qed.

Lemma clean_cell_twice (x : cell) :
  clean_keep (clean_text (clean_keep (clean_text x)))
  = clean_keep (clean_text x).
Proof.
  destruct x as [s|]; [|reflexivity].
  rewrite (clean_cell_some s).
  destruct (char_in "@" (Str.lower (Str.strip s))
            && char_in "." (Str.lower (Str.strip s)))%bool eqn:Hc;
    [|reflexivity].
  rewrite clean_cell_some.
  rewrite strip_lower, strip_idem, lower_idem. now rewrite Hc.
Qed.

Lemma clean_cell_kept (x : cell) (t : string) :
  clean_keep (clean_text x) = Some t ->
  char_in "@" t = true /\ char_in "." t = true
  /\ Str.strip t = t /\ Str.lower t = t.
Proof.
  destruct x as [s|]; [|discriminate].
  rewrite clean_cell_some.
  destruct (char_in "@" (Str.lower (Str.strip s))) eqn:Hat;
    [|discriminate].
  destruct (char_in "." (Str.lower (Str.strip s))) eqn:Hdot;
    [|discriminate].
  simpl. intros H. injection H as <-.
  rewrite strip_lower, strip_idem, lower_idem. auto.
Qed.

Lemma valid_emails_of_one (x : cell) :
  valid_emails_of [x]
  = match x with
    | Some t =>
        if is_valid_email_format (Str.strip t) then [Str.strip t] else []
    | None => []
    end.
Proof. destruct x; reflexivity. Qed.

(** A cell with a valid address keeps it, in lower case. *)
Lemma clean_cell_keeps (x : option string) (e : string) :
  In e (valid_emails_of [x]) ->
  clean_keep (clean_text x) = Some (Str.lower e)
  /\ valid_emails_of [Some (Str.lower e)] = [Str.lower e].
Proof.
  rewrite valid_emails_of_one.
  destruct x as [s|]; [|intros []].
  destruct (is_valid_email_format (Str.strip s)) eqn:Hv; [|intros []].
  intros [<-|[]].
  rewrite is_valid_email_format_strip in Hv.
  unfold is_valid_email_format in Hv.
  pose proof (valid_has_at_and_dot _ Hv) as [Hat Hdot].
  pose proof (format_lower_accepted _ Hv) as Hlow.
  split.
  - rewrite clean_cell_some, char_in_lower_at, char_in_lower_dot, Hat, Hdot.
    reflexivity.
  - rewrite valid_emails_of_one.
    unfold is_valid_email_format, email_pattern.
    unfold _is_valid_email_format in Hlow.
    now rewrite !strip_lower, !strip_idem, Hlow.
Qed.

Lemma valid_emails_of_cons (x : cell) (cells : list cell) :
  valid_emails_of (x :: cells) = valid_emails_of [x] ++ valid_emails_of cells.
Proof.
  simpl. destruct (isna x); [reflexivity|].
  destruct (is_valid_email_format (Str.strip (str x))); reflexivity.
Qed.

Lemma column_apply_column (f : cell -> cell) (name : string)
    (df : DataFrame) :
  f None = None ->
  column (apply_column f name df) name = map f (column df name).
Proof.
  intros Hf. unfold column, apply_column.
  destruct (index_of name (columns df)) as [j|] eqn:Ej; simpl;
    [|now rewrite Ej].
  rewrite Ej, !map_map. apply map_ext. intros row.
  now apply nth_update_nth.
Qed.

Lemma has_column_apply_column (f : cell -> cell) (name name' : string)
    (df : DataFrame) :
  has_column (apply_column f name df) name' = has_column df name'.
Proof.
  unfold has_column, apply_column.
  destruct (index_of name (columns df)); reflexivity.
Qed.

(** X15.  Cleaning loses no valid address: when
    [extract_valid_emails] takes an address from the cell of a row, the
    cleaned frame holds that address in lower case in the same row, and
    [extract_valid_emails] takes it from there; so every address found
    in the frame is found, in lower case, in the cleaned frame. *)
Theorem clean_keeps_valid_addresses (df : DataFrame) (email_column : string) :
  (forall i x e,
     nth_error (column df email_column) i = Some x ->
     In e (valid_emails_of [x]) ->
     nth_error (column (clean_email_data df email_column) email_column) i
     = Some (Some (Str.lower e))
     /\ valid_emails_of [Some (Str.lower e)] = [Str.lower e])
  /\ (forall e,
        In e (extract_valid_emails df email_column) ->
        In (Str.lower e)
          (extract_valid_emails (clean_email_data df email_column)
             email_column)).
Proof.
  unfold clean_email_data, extract_valid_emails.
  destruct (has_column df email_column) eqn:Hc; simpl.
  - rewrite !has_column_apply_column, Hc. simpl.
    rewrite !column_apply_column by reflexivity. rewrite map_map.
    split.
    + intros i x e Hi He. rewrite nth_error_map, Hi. simpl.
      destruct (clean_cell_keeps x e He) as [-> Hone]. auto.
    + intros e.
      induction (column df email_column) as [|x cells IH]; [intros []|].
      cbn [map].
      rewrite (valid_emails_of_cons (clean_keep (clean_text x))).
      rewrite (valid_emails_of_cons x cells), !in_app_iff.
      intros [He|He]; [left | right; now apply IH].
      destruct (clean_cell_keeps x e He) as [-> ->]. now left.
  - rewrite Hc. simpl. split; [|intros e []].
    intros i x e Hi. unfold column in Hi. unfold has_column in Hc.
    destruct (index_of email_column (columns df)); [discriminate|].
    destruct i; discriminate Hi.
Qed.

Lemma clean_keeps_valid_addresses_witness :
  In "cy@example.org"
    (extract_valid_emails (clean_email_data sample_df "email") "email").
Proof.
  destruct (clean_keeps_valid_addresses sample_df "email") as [_ H].
  apply (H "Cy@Example.org"). simpl. right. now left.
Defined.

(** X16.  [clean_email_data] is idempotent; it keeps the column names
    and the number of rows and changes no other column; every cell it
    leaves in the email column is stripped, lower-case text that holds
    an [@] and a dot. *)
Theorem clean_email_data_once (df : DataFrame) (email_column : string) :
  let cleaned := clean_email_data df email_column in
  clean_email_data cleaned email_column = cleaned
  /\ columns cleaned = columns df
  /\ List.length (rows cleaned) = List.length (rows df)
  /\ (forall name, name <> email_column ->
                   column cleaned name = column df name)
  /\ (forall t, In (Some t) (column cleaned email_column) ->
                char_in "@" t = true /\ char_in "." t = true
                /\ Str.strip t = t /\ Str.lower t = t).
Proof.
  cbv zeta. unfold clean_email_data.
  destruct (has_column df email_column) eqn:Hc; simpl.
  - rewrite !has_column_apply_column, Hc. simpl.
    unfold has_column in Hc.
    destruct (index_of email_column (columns df)) as [j|] eqn:Ej;
      [|discriminate].
    assert (Eo : forall d,
               apply_column clean_keep email_column
                 (apply_column clean_text email_column d)
               = match index_of email_column (columns d) with
                 | Some j =>
                     {| columns := columns d;
                        rows := map (update_nth j
                                       (fun x => clean_keep (clean_text x)))
                                  (rows d) |}
                 | None => d
                 end).
    { intros d. unfold apply_column.
      destruct (index_of email_column (columns d)) as [i|] eqn:Ei; simpl;
        [|now rewrite Ei].
      rewrite Ei, map_map. f_equal. apply map_ext. intros row.
      apply update_nth_twice. }
    rewrite !Eo. rewrite Ej. simpl. rewrite Ej.
    split; [|split; [|split; [|split]]].
    + f_equal. rewrite map_map. apply map_ext. intros row.
      rewrite update_nth_twice. apply update_nth_ext. intros x.
      apply clean_cell_twice.
    + reflexivity.
    + apply length_map.
    + intros name Hne. unfold column. simpl.
      destruct (index_of name (columns df)) as [i|] eqn:Ei; [|reflexivity].
      rewrite map_map. apply map_ext. intros row.
      apply nth_update_nth_other. intros ->.
      apply Hne. exact (index_of_same _ _ _ _ Ei Ej).
    + intros t. unfold column. simpl. rewrite Ej, map_map.
      intros Hin. apply in_map_iff in Hin as (row & E & _).
      rewrite nth_update_nth in E by reflexivity.
      exact (clean_cell_kept _ _ E).
  - rewrite Hc. simpl.
    split; [reflexivity|]. split; [reflexivity|]. split; [reflexivity|].
    split; [reflexivity|].
    intros t. unfold column. unfold has_column in Hc.
    destruct (index_of email_column (columns df)); [discriminate|].
    intros [].
Qed.

Lemma clean_email_data_once_witness :
  char_in "@" "cy@example.org" = true /\ char_in "." "cy@example.org" = true
  /\ Str.strip "cy@example.org" = "cy@example.org"
  /\ Str.lower "cy@example.org" = "cy@example.org".
Proof.
  destruct (clean_email_data_once sample_df "email") as (_ & _ & _ & _ & H).
  apply H. simpl. right. right. now left.
Defined.

(* ------------------------------------------------------------------ *)
(** ** The loop of [verify_emails] *)

Lemma update_nth_app {A : Type} (f : A -> A) (l1 : list A) (x : A)
    (l2 : list A) :
  update_nth (List.length l1) f (l1 ++ x :: l2) = l1 ++ f x :: l2.
Proof. induction l1 as [|y l1 IH]; simpl; [reflexivity | now rewrite IH]. Qed.

Lemma row_get_column (df : DataFrame) (name : string) (j : nat)
    (row : list cell) :
  index_of name (columns df) = Some j ->
  row_get df name row = Ok (nth j row None).
Proof. intros H. unfold row_get. now rewrite H. Qed.

Lemma valid_emails_of_skipped (x : cell) (cells : list cell) :
  valid_emails_of (x :: cells)
  = if skipped x then valid_emails_of cells
    else Str.strip (str x) :: valid_emails_of cells.
Proof.
  unfold skipped. simpl. destruct (isna x); [reflexivity|]. simpl.
  rewrite is_valid_email_format_strip.
  destruct (is_valid_email_format (str x)); reflexivity.
Qed.

Lemma count_rows_cons (s : status) (r : row_result) (l : list row_result) :
  count_rows s (r :: l)
  = (if status_eqb (Email_Verification_Status r) s then 1 else 0)
    + count_rows s l.
Proof.
  unfold count_rows, len. simpl.
  destruct (status_eqb (Email_Verification_Status r) s); simpl List.length;
    lia.
Qed.

(** One turn of the loop. *)
Lemma verify_rows_cons {W : Type} (net : Net W) (df : DataFrame)
    (email_column : string) (j : nat) (verifier : EmailVerifier)
    (delay : Q) (total : Z) :
  index_of email_column (columns df) = Some j ->
  forall (index : nat) (row : list (option string))
         (rest : list (list (option string))) (st : loop_state) (w : W),
    verify_rows net df email_column verifier delay total index (row :: rest)
      st w =
      if skipped (nth j row None)
      then verify_rows net df email_column verifier delay total (S index)
             rest (mark_invalid_format index st) w
      else
        match verify_email net verifier (str (nth j row None)) w with
        | (Ok (is_valid, details), w1) =>
            let st1 := record_result index is_valid details
                         (count_verified st) in
            match (if verified_count st1 <? total
                   then time_sleep net delay else ret tt) w1 with
            | (Ok _, w2) =>
                verify_rows net df email_column verifier delay total
                  (S index) rest st1 w2
            | (Raise e, w2) => (Raise e, w2)
            end
        | (Raise e, w1) => (Raise e, w1)
        end.
Proof.
  intros Hj index row rest st w.
  cbn [verify_rows]. unfold bind at 1, lift.
  rewrite (row_get_column df email_column j row Hj).
  unfold skipped.
  destruct (isna (nth j row None)
            || negb (is_valid_email_format (str (nth j row None))))%bool;
    [reflexivity|].
  unfold bind at 1.
  destruct (verify_email net verifier (str (nth j row None)) w)
    as [[[b d]|e] w1]; [|reflexivity].
  unfold bind at 1. cbv zeta.
  destruct ((if verified_count
                  (record_result index b d (count_verified st)) <? total
             then time_sleep net delay else ret tt) w1) as [[[]|e] w2];
    reflexivity.
Qed.

Lemma mark_invalid_format_facts (st : loop_state)
    (finished : list row_result) (p : row_result)
    (pending : list row_result) :
  result_df st = finished ++ p :: pending ->
  let st1 := mark_invalid_format (List.length finished) st in
  result_df st1
  = finished
    ++ {| Email_Verification_Status := InvalidFormat;
          Verification_Details := "Invalid email format" |} :: pending
  /\ verified_count st1 = verified_count st
  /\ valid_count st1 = valid_count st
  /\ invalid_count st1 = invalid_count st
  /\ error_count st1 = error_count st.
Proof.
  intros Hdf. cbv zeta.
  unfold mark_invalid_format, set_details, set_status.
  cbn [result_df verified_count valid_count invalid_count error_count].
  rewrite Hdf, !update_nth_app. auto.
Qed.

Lemma record_result_facts (st : loop_state) (finished : list row_result)
    (p : row_result) (pending : list row_result) (is_valid : bool)
    (details : string) :
  result_df st = finished ++ p :: pending ->
  let st1 := record_result (List.length finished) is_valid details
               (count_verified st) in
  let s := verification_status (is_valid, details) in
  result_df st1
  = finished
    ++ {| Email_Verification_Status := s; Verification_Details := details |}
       :: pending
  /\ verified_count st1 = verified_count st + 1
  /\ valid_count st1
     = valid_count st + (if status_eqb s Valid then 1 else 0)
  /\ invalid_count st1
     = invalid_count st + (if status_eqb s Invalid then 1 else 0)
  /\ error_count st1
     = error_count st + (if status_eqb s Error then 1 else 0).
Proof.
  intros Hdf. cbv zeta.
  unfold record_result, count_verified, verification_status.
  destruct is_valid; [|destruct (String.eqb details "error")];
    unfold set_details, set_status, set_counts;
    cbn [result_df verified_count valid_count invalid_count error_count
           status_eqb];
    rewrite Hdf, !update_nth_app; repeat split; lia.
Qed.

Section AppLoop.

Context {W : Type} (net : Net W).
Variables (df : DataFrame) (email_column : string) (j : nat).
Variables (verifier : EmailVerifier) (delay : Q) (total : Z).

Hypothesis Hcolumn : index_of email_column (columns df) = Some j.
Hypothesis Hnet : net_only_Exception net.
Hypothesis Hsleep : sleep_returns net delay.

(** What one row of the result says of its row of the frame. *)
Let row_done (row : list cell) (r : row_result) : Prop :=
  let email := nth j row None in
  if skipped email
  then r = {| Email_Verification_Status := InvalidFormat;
              Verification_Details := "Invalid email format" |}
  else exists is_valid wi wi',
         verify_email net verifier (str email) wi
         = (Ok (is_valid, Verification_Details r), wi')
         /\ Email_Verification_Status r
            = verification_status (is_valid, Verification_Details r).

Lemma verify_rows_run (todo : list (list cell)) :
  forall (finished pending : list row_result) (st : loop_state) (w : W),
    result_df st = finished ++ pending ->
    List.length pending = List.length todo ->
    exists st' w' fresh,
      verify_rows net df email_column verifier delay total
        (List.length finished) todo st w = (Ok st', w')
      /\ result_df st' = finished ++ fresh
      /\ Forall2 row_done todo fresh
      /\ verified_count st'
         = verified_count st
           + len (valid_emails_of (map (fun row => nth j row None) todo))
      /\ valid_count st' = valid_count st + count_rows Valid fresh
      /\ invalid_count st' = invalid_count st + count_rows Invalid fresh
      /\ error_count st' = error_count st + count_rows Error fresh.
Proof.
  induction todo as [|row rest IH]; intros finished pending st w Hdf Hlen.
  - destruct pending; [|discriminate].
    exists st, w, []. cbn. unfold ret, len, count_rows, len. simpl.
    repeat split; auto; try lia; try constructor.
  - destruct pending as [|p pending]; [discriminate|].
    injection Hlen as Hlen.
    rewrite (verify_rows_cons net df email_column j verifier delay total
               Hcolumn).
    cbn [map]. rewrite valid_emails_of_skipped.
    destruct (skipped (nth j row None)) eqn:Hskip.
    + destruct (mark_invalid_format_facts st finished p pending Hdf)
        as (Hdf1 & Hv1 & Hva1 & Hin1 & Her1).
      set (r := {| Email_Verification_Status := InvalidFormat;
                   Verification_Details := "Invalid email format" |}) in *.
      rewrite (app_assoc finished [r] pending : finished ++ r :: pending = _)
        in Hdf1.
      destruct (IH (finished ++ [r]) pending _ w Hdf1 Hlen)
        as (st' & w' & fresh & E & Hres & Hrows & Hv & Hva & Hin & Her).
      rewrite length_app, Nat.add_1_r in E.
      exists st', w', (r :: fresh).
      split; [exact E|]. split; [now rewrite Hres, <- app_assoc|].
      split; [constructor; [unfold row_done; now rewrite Hskip | exact Hrows]|].
      rewrite !count_rows_cons. cbn [Email_Verification_Status r status_eqb].
      repeat split; lia.
    + destruct (verify_email_returns net Hnet verifier
                  (str (nth j row None)) w) as (b & d & w1 & Ev & _).
      rewrite Ev.
      destruct (record_result_facts st finished p pending b d Hdf)
        as (Hdf1 & Hv1 & Hva1 & Hin1 & Her1).
      remember (verification_status (b, d)) as s eqn:Es.
      set (r := {| Email_Verification_Status := s;
                   Verification_Details := d |}) in *.
      set (st1 := record_result (List.length finished) b d
                    (count_verified st)) in *.
      rewrite (app_assoc finished [r] pending : finished ++ r :: pending = _)
        in Hdf1.
      assert (Hs : exists w2,
                 (if verified_count st1 <? total
                  then time_sleep net delay else ret tt) w1 = (Ok tt, w2)).
      { destruct (verified_count st1 <? total);
          [apply Hsleep | now exists w1]. }
      destruct Hs as (w2 & Esl). rewrite Esl.
      destruct (IH (finished ++ [r]) pending st1 w2 Hdf1 Hlen)
        as (st' & w' & fresh & E & Hres & Hrows & Hv & Hva & Hin & Her).
      rewrite length_app, Nat.add_1_r in E.
      exists st', w', (r :: fresh).
      split; [exact E|]. split; [now rewrite Hres, <- app_assoc|].
      split.
      { constructor; [|exact Hrows].
        unfold row_done. rewrite Hskip. exists b, w, w1.
        split; [exact Ev | exact Es]. }
      rewrite !count_rows_cons. cbn [Email_Verification_Status r].
      unfold len in *. cbn [List.length]. rewrite Nat2Z.inj_succ.
      repeat split; lia.
Qed.

End AppLoop.

Lemma Forall2_nth_error {A B : Type} (P : A -> B -> Prop) (l1 : list A)
    (l2 : list B) :
  Forall2 P l1 l2 ->
  forall i a, nth_error l1 i = Some a ->
              exists b, nth_error l2 i = Some b /\ P a b.
Proof.
  induction 1 as [|x y l1 l2 Hxy _ IH]; intros [|i] a; simpl;
    try discriminate.
  - intros E. injection E as <-. eauto.
  - apply IH.
Qed.

(** The statuses of the rows the loop has written, counted. *)
Lemma written_rows_counts (j : nat) (todo : list (list (option string)))
    (fresh : list row_result) :
  Forall2 (fun row r =>
             if skipped (nth j row None)
             then Email_Verification_Status r = InvalidFormat
             else Email_Verification_Status r = Valid
                  \/ Email_Verification_Status r = Invalid
                  \/ Email_Verification_Status r = Error) todo fresh ->
  let verified := len (valid_emails_of (map (fun row => nth j row None) todo))
  in
  List.length fresh = List.length todo
  /\ count_rows Valid fresh + count_rows Invalid fresh
     + count_rows Error fresh = verified
  /\ count_rows InvalidFormat fresh + verified = len todo
  /\ count_rows NotChecked fresh = 0.
Proof.
  induction 1 as [|row r todo fresh Hr _ IH]; cbv zeta in *.
  - repeat split.
  - destruct IH as (IH0 & IH1 & IH2 & IH3).
    cbn [map]. rewrite valid_emails_of_skipped, !count_rows_cons.
    unfold len in *.
    destruct (skipped (nth j row None)).
    + rewrite Hr. cbn [status_eqb List.length].
      rewrite !Nat2Z.inj_succ. repeat split; lia.
    + destruct Hr as [-> | [-> | ->]]; cbn [status_eqb List.length];
        rewrite !Nat2Z.inj_succ; repeat split; lia.
Qed.

Lemma extract_needs_column (df : DataFrame) (email_column : string) :
  extract_valid_emails df email_column <> [] ->
  exists j, index_of email_column (columns df) = Some j
            /\ extract_valid_emails df email_column
               = valid_emails_of (map (fun row => nth j row None) (rows df)).
Proof.
  unfold extract_valid_emails, has_column, column.
  destruct (index_of email_column (columns df)) as [j|]; simpl;
    [eauto | congruence].
Qed.

(** With a valid address in the column, [verify_emails] runs its loop
    to the end and stores the state the loop ends in. *)
Lemma verify_emails_stores {W : Type} (net : Net W) (df : DataFrame)
    (email_column : string) (delay : Q) (timeout : Z) (w : W) :
  extract_valid_emails df email_column <> [] ->
  net_only_Exception net ->
  sleep_returns net delay ->
  exists j st w',
    index_of email_column (columns df) = Some j
    /\ verify_emails net df email_column delay timeout w = (Ok (Some st), w')
    /\ exists fresh,
         result_df st = fresh
         /\ Forall2
              (fun row r =>
                 if skipped (nth j row None)
                 then r = {| Email_Verification_Status := InvalidFormat;
                             Verification_Details := "Invalid email format" |}
                 else exists is_valid wi wi',
                        verify_email net
                          {| timeout := timeout;
                             sender_email := "test@example.com" |}
                          (str (nth j row None)) wi
                        = (Ok (is_valid, Verification_Details r), wi')
                        /\ Email_Verification_Status r
                           = verification_status
                               (is_valid, Verification_Details r))
              (rows df) fresh.
Proof.
  intros Hne Hnet Hsleep.
  destruct (extract_needs_column df email_column Hne) as (j & Hj & Ex).
  unfold verify_emails.
  destruct (len (extract_valid_emails df email_column) =? 0) eqn:Ez.
  { apply Z.eqb_eq in Ez. unfold len in Ez.
    destruct (extract_valid_emails df email_column);
      [congruence | simpl in Ez; lia]. }
  set (st0 := {| verified_count := 0; valid_count := 0;
                 invalid_count := 0; error_count := 0;
                 result_df := _ |}).
  destruct (verify_rows_run net df email_column j
              {| timeout := timeout; sender_email := "test@example.com" |}
              delay (len (extract_valid_emails df email_column))
              Hj Hnet Hsleep (rows df) [] (result_df st0) st0 w eq_refl)
    as (st & w' & fresh & E & Hres & Hrows & _).
  { unfold st0. cbn [result_df]. apply length_map. }
  simpl in Hres, E.
  exists j, st, w'. split; [exact Hj|].
  unfold catch, bind. rewrite E. split; [reflexivity|].
  exists fresh. split; [exact Hres | exact Hrows].
Qed.

(** X17.  [verify_emails] stores nothing and makes no call when the
    column holds no valid address.  Otherwise, on a network whose calls
    raise instances of [Exception] only and whose [sleep] returns, it
    stores a result with one row per row of the frame, none left "Not
    Checked"; the number of verified rows is the number of addresses
    [extract_valid_emails] finds, so that the progress shown ends at
    1; the three counters are the numbers of rows with status Valid,
    Invalid and Error and add up to the verified rows; the other rows
    are "Invalid Format". *)
Theorem verify_emails_counts {W : Type} (net : Net W) (df : DataFrame)
    (email_column : string) (delay : Q) (timeout : Z) (w : W) :
  (extract_valid_emails df email_column = [] ->
   verify_emails net df email_column delay timeout w = (Ok None, w))
  /\ (extract_valid_emails df email_column <> [] ->
      net_only_Exception net ->
      sleep_returns net delay ->
      exists st w',
        verify_emails net df email_column delay timeout w = (Ok (Some st), w')
        /\ List.length (result_df st) = List.length (rows df)
        /\ verified_count st = len (extract_valid_emails df email_column)
        /\ valid_count st = count_rows Valid (result_df st)
        /\ invalid_count st = count_rows Invalid (result_df st)
        /\ error_count st = count_rows Error (result_df st)
        /\ valid_count st + invalid_count st + error_count st
           = verified_count st
        /\ count_rows InvalidFormat (result_df st) + verified_count st
           = len (rows df)
        /\ count_rows NotChecked (result_df st) = 0).
Proof.
  split.
  - intros E. unfold verify_emails. now rewrite E.
  - intros Hne Hnet Hsleep.
    destruct (extract_needs_column df email_column Hne) as (j & Hj & Ex).
    unfold verify_emails.
    destruct (len (extract_valid_emails df email_column) =? 0) eqn:Ez.
    { apply Z.eqb_eq in Ez. unfold len in Ez.
      destruct (extract_valid_emails df email_column);
        [congruence | simpl in Ez; lia]. }
    set (st0 := {| verified_count := 0; valid_count := 0;
                   invalid_count := 0; error_count := 0;
                   result_df := _ |}).
    destruct (verify_rows_run net df email_column j
                {| timeout := timeout; sender_email := "test@example.com" |}
                delay (len (extract_valid_emails df email_column))
                Hj Hnet Hsleep (rows df) [] (result_df st0) st0 w eq_refl)
      as (st & w' & fresh & E & Hres & Hrows & Hv & Hva & Hin & Her).
    { unfold st0. cbn [result_df]. apply length_map. }
    simpl in Hres, E.
    exists st, w'. unfold catch, bind. rewrite E.
    split; [reflexivity|].
    destruct (written_rows_counts j (rows df) fresh)
      as (Hl & Hsum & Hfmt & Hnc).
    { eapply Forall2_impl; [|exact Hrows]. intros row r. cbv beta zeta.
      destruct (skipped (nth j row None)).
      - intros ->. reflexivity.
      - intros (b & wi & wi' & _ & ->). unfold verification_status.
        destruct b; [auto|].
        destruct (String.eqb (Verification_Details r) "error"); auto. }
    cbv zeta in Hsum, Hfmt. rewrite <- Ex in Hsum, Hfmt, Hv.
    unfold st0 in Hv, Hva, Hin, Her. cbn in Hv, Hva, Hin, Her.
    rewrite Hres. repeat split; try assumption; lia.
Qed.

Lemma verify_emails_counts_witness :
  exists st w',
    verify_emails (net_replying 250) sample_df "email" 0%Q 10 0%nat
    = (Ok (Some st), w')
    /\ List.length (result_df st) = 5%nat
    /\ verified_count st = 2.
Proof.
  destruct (verify_emails_counts (net_replying 250) sample_df "email" 0%Q 10
              0%nat) as [_ H].
  destruct H as (st & w' & E & Hl & Hv & _).
  - discriminate.
  - apply scripted_only_Exception; reflexivity.
  - apply scripted_sleep_returns.
  - exists st, w'. split; [exact E|]. split; [exact Hl | exact Hv].
Defined.

(** X18.  Row by row: a row whose cell is missing or fails the
    stripping check is written "Invalid Format" with "Invalid email
    format"; any other row holds the detail [verify_email] returned for
    the text of its cell, as it stands, and the status of that result.
    A cell that passes the stripping check but not the verifier's own
    check (an address with blanks around it) is therefore written
    Invalid with "Invalid email format" and counted as verified. *)
Theorem verify_emails_rows {W : Type} (net : Net W) (df : DataFrame)
    (email_column : string) (delay : Q) (timeout : Z) (w : W) :
  extract_valid_emails df email_column <> [] ->
  net_only_Exception net ->
  sleep_returns net delay ->
  exists st w',
    verify_emails net df email_column delay timeout w = (Ok (Some st), w')
    /\ forall i row email,
         nth_error (rows df) i = Some row ->
         row_get df email_column row = Ok email ->
         exists r,
           nth_error (result_df st) i = Some r
           /\ (skipped email = true ->
               r = {| Email_Verification_Status := InvalidFormat;
                      Verification_Details := "Invalid email format" |})
           /\ (skipped email = false ->
               exists is_valid wi wi',
                 verify_email net
                   {| timeout := timeout;
                      sender_email := "test@example.com" |}
                   (str email) wi
                 = (Ok (is_valid, Verification_Details r), wi')
                 /\ Email_Verification_Status r
                    = verification_status (is_valid, Verification_Details r))
           /\ (skipped email = false ->
               _is_valid_email_format (str email) = false ->
               r = {| Email_Verification_Status := Invalid;
                      Verification_Details := "Invalid email format" |}).
Proof.
  intros Hne Hnet Hsleep.
  destruct (verify_emails_stores net df email_column delay timeout w
              Hne Hnet Hsleep)
    as (j & st & w' & Hj & E & fresh & Hres & Hrows).
  exists st, w'. split; [exact E|].
  intros i row email Hi Hg.
  rewrite (row_get_column df email_column j row Hj) in Hg.
  injection Hg as <-.
  destruct (Forall2_nth_error _ _ _ Hrows i row Hi) as (r & Hr & Hrow).
  exists r. rewrite Hres. split; [exact Hr|].
  cbv beta zeta in Hrow.
  destruct (skipped (nth j row None)).
  - split; [intros _; exact Hrow|]. split; discriminate.
  - split; [discriminate|]. split; [intros _; exact Hrow|].
    intros _ Hf. destruct Hrow as (b & wi & wi' & Ev & Es).
    rewrite (verify_email_bad_format net _ _ wi Hf) in Ev.
    injection Ev as <- Hd _. destruct r as [s d]. simpl in *.
    subst. reflexivity.
Qed.

Lemma verify_emails_rows_witness :
  exists st w',
    verify_emails (net_replying 250) sample_df "email" 0%Q 10 0%nat
    = (Ok (Some st), w')
    /\ nth_error (result_df st) 2
       = Some {| Email_Verification_Status := Invalid;
                 Verification_Details := "Invalid email format" |}.
Proof.
  destruct (verify_emails_rows (net_replying 250) sample_df "email" 0%Q 10
              0%nat) as (st & w' & E & H).
  - discriminate.
  - apply scripted_only_Exception; reflexivity.
  - apply scripted_sleep_returns.
  - exists st, w'. split; [exact E|].
    destruct (H 2%nat [Some "Cy"; Some " Cy@Example.org "]
                (Some " Cy@Example.org ") eq_refl eq_refl)
      as (r & Hr & _ & _ & Hbug).
    rewrite Hr. f_equal. apply Hbug; reflexivity.
Defined.



